(** * LoRaWAN backend-interfaces client (backend/client.go)

    A shallow embedding of the roaming client: the client record and its
    constructor, the correlation key of the async scheme, the request
    procedure with its listener goroutine (as a small-step machine driven by
    an explicit schedule), the five request operations and the async answer
    publisher, followed by the properties of the dual-mode response
    correlation that the specification states. *)

From Stdlib Require Import String Ascii List ZArith NArith Lia Bool.
From Stdlib Require Import DecimalString DecimalN.
Import ListNotations.
Open Scope string_scope.

(** ** Go values *)

(** [[]byte] values. *)
Definition bytes := list Byte.byte.

(** [[]byte(s)] and [string(b)]. *)
Definition bytes_of_string (s : string) : bytes := list_byte_of_string s.
Definition string_of_bytes (b : bytes) : string := string_of_list_byte b.

(** Go [error] values, by the call that builds them: [errors.New],
    [errors.Wrap], [fmt.Errorf], and the errors handed back by the libraries
    the client calls (encoding/json, net/http, io/ioutil, crypto/tls,
    go-redis). *)
Inductive error : Type :=
| errors_New (msg : string)
| errors_Wrap (cause : error) (msg : string)
| fmt_Errorf (msg : string)
| lib_error (msg : string).

(** A Go [(T, error)] return pair with the error set or not. *)
Inductive result (A : Type) : Type :=
| Ok (a : A)
| Err (e : error).
Arguments Ok {A} a.
Arguments Err {A} e.

(** [var ErrAsyncTimeout = errors.New("async timeout")]. *)
Definition ErrAsyncTimeout : error := errors_New "async timeout".

(** ** Payloads *)

(** [type MessageType string]. *)
Definition MessageType := string.

(** [type ResultCode string]. *)
Definition ResultCode := string.

(** A [uint32]: a natural number (below [2^32]). *)
Definition uint32 := N.

(** Modelled from the spec: the message-type tags, the success result code and
    the protocol version are constants of the package declared outside
    client.go; the spec shows the tag of a Start request as [PRStartReq] and
    the success code as ["Success"]. *)
Definition PRStartReq : MessageType := "PRStartReq".
Definition PRStopReq : MessageType := "PRStopReq".
Definition XmitDataReq : MessageType := "XmitDataReq".
Definition ProfileReq : MessageType := "ProfileReq".
Definition HomeNSReq : MessageType := "HomeNSReq".
Definition Success : ResultCode := "Success".
Definition ProtocolVersion1_0 : string := "1.0".

(** The five operations of the client. *)
Inductive Operation : Type :=
| OpPRStart
| OpPRStop
| OpXmitData
| OpProfile
| OpHomeNS.

Definition tag_of (op : Operation) : MessageType :=
  match op with
  | OpPRStart => PRStartReq
  | OpPRStop => PRStopReq
  | OpXmitData => XmitDataReq
  | OpProfile => ProfileReq
  | OpHomeNS => HomeNSReq
  end.

(** Modelled from the spec: [BasePayload], the metadata every request and
    answer carries (protocol version, sender, receiver, transaction id and
    message type); the struct is declared outside client.go. *)
Module BasePayload.
Record t : Type := mk {
  ProtocolVersion : string;
  SenderID : string;
  ReceiverID : string;
  TransactionID : uint32;
  MessageType : MessageType
}.
End BasePayload.

(** Modelled from the spec: the result of an answer, a code and a
    description. *)
Module Result.
Record t : Type := mk {
  ResultCode : ResultCode;
  Description : string
}.
End Result.

(** A request payload: the base payload and the fields of the operation,
    which the client never looks at. *)
Record ReqPayload (B : Type) : Type := mkReqPayload {
  req_base : BasePayload.t;
  req_body : B
}.
Arguments mkReqPayload {B} _ _.
Arguments req_base {B} _.
Arguments req_body {B} _.

(** An answer payload: base payload, result, and the fields of the
    operation. *)
Record AnsPayload (B : Type) : Type := mkAnsPayload {
  ans_base : BasePayload.t;
  ans_result : Result.t;
  ans_body : B
}.
Arguments mkAnsPayload {B} _ _ _.
Arguments ans_base {B} _.
Arguments ans_result {B} _.
Arguments ans_body {B} _.

(** ** Correlation key *)

(** [%d] of an unsigned integer: its decimal digits. *)
Definition fmt_d (n : N) : string := NilZero.string_of_uint (N.to_uint n).

(** [fmt.Sprintf("lora:backend:async:%s:%d", typ, id)]. *)
Definition getAsyncKey (typ : MessageType) (id : uint32) : string :=
  "lora:backend:async:" ++ typ ++ ":" ++ fmt_d id.

(** ** Configuration and client *)

(** [*redis.Client]: a handle on the broker connection. *)
Record redis_Client : Type := mkRedis { redis_addr : string }.

(** [tls.Config], as far as [NewClient] fills it: the pool of CA
    certificates (the PEM blobs appended to it) and the client
    certificates. *)
Record tls_Config : Type := mkTLS {
  RootCAs : option (list bytes);
  Certificates : list bytes
}.

(** [*http.Client]: [http.DefaultClient], or a client whose transport
    carries a TLS configuration. *)
Inductive http_Client : Type :=
| http_DefaultClient
| http_ClientWithTransport (TLSClientConfig : tls_Config).

(** [http.Response]: the status code and what [ioutil.ReadAll(resp.Body)]
    gives. *)
Record http_Response : Type := mkResponse {
  StatusCode : Z;
  Body : result bytes
}.

(** [ClientConfig]. [AsyncTimeout] is a [time.Duration], in nanoseconds. *)
Record ClientConfig : Type := mkClientConfig {
  SenderID : string;
  ReceiverID : string;
  Server : string;
  CACert : string;
  TLSCert : string;
  TLSKey : string;
  RedisClient : option redis_Client;
  AsyncTimeout : Z
}.

(** [type client struct]. *)
Record client : Type := mkClient {
  server : string;
  httpClient : http_Client;
  protocolVersion : string;
  senderID : string;
  receiverID : string;
  redisClient : option redis_Client;
  asyncTimeout : Z
}.

(** ** The world outside the client

    The libraries the client calls: the JSON codec of each payload type, the
    HTTP transport, the broker's answer to a publish, and the file and
    certificate loaders used at construction. *)
Record Env : Type := mkEnv {
  ReqBody : Operation -> Type;
  AnsBody : Operation -> Type;
  (** the zero value of the operation's answer fields ([var ans ...]) *)
  zero_body : forall op, AnsBody op;
  (** [json.Marshal] of a request and of an answer *)
  json_Marshal_req : forall op, ReqPayload (ReqBody op) -> result bytes;
  json_Marshal_ans : forall op, AnsPayload (AnsBody op) -> result bytes;
  (** [json.Unmarshal(bb, ans)]: the value left in [*ans] and the error *)
  json_Unmarshal :
    forall op, bytes -> AnsPayload (AnsBody op) ->
               AnsPayload (AnsBody op) * option error;
  (** [httpClient.Post(server, "application/json", body)] *)
  http_Post : http_Client -> string -> bytes -> result http_Response;
  (** [redisClient.Publish(key, b).Err()] *)
  redis_Publish : redis_Client -> string -> bytes -> option error;
  (** [ioutil.ReadFile], [CertPool.AppendCertsFromPEM] on a new pool,
      [tls.LoadX509KeyPair] *)
  ioutil_ReadFile : string -> result bytes;
  AppendCertsFromPEM : bytes -> bool;
  tls_LoadX509KeyPair : string -> string -> result bytes
}.

(** Sequencing of fallible steps: [if err != nil { return nil, err }]. *)
Definition bind {A B : Type} (r : result A) (k : A -> result B) : result B :=
  match r with
  | Ok a => k a
  | Err e => Err e
  end.

Notation "x <- r ;; k" := (bind r (fun x => k))
  (at level 61, r at next level, right associativity).

Definition is_empty (s : string) : bool := String.eqb s "".

(** [NewClient]. The first branch is taken when no TLS setting is given;
    the second builds the TLS configuration and returns a client in which
    only [server] and [httpClient] are set. *)
Definition NewClient (E : Env) (config : ClientConfig) : result client :=
  if is_empty (CACert config) && is_empty (TLSCert config)
     && is_empty (TLSKey config)
  then
    Ok {| server := Server config;
          httpClient := http_DefaultClient;
          senderID := SenderID config;
          receiverID := ReceiverID config;
          protocolVersion := ProtocolVersion1_0;
          redisClient := RedisClient config;
          asyncTimeout := AsyncTimeout config |}
  else
    let tlsConfig := {| RootCAs := None; Certificates := [] |} in
    tlsConfig <-
      (if negb (is_empty (CACert config)) then
         match ioutil_ReadFile E (CACert config) with
         | Err err => Err (errors_Wrap err "read ca cert error")
         | Ok rawCACert =>
             if negb (AppendCertsFromPEM E rawCACert)
             then Err (errors_New "append ca cert to pool error")
             else Ok {| RootCAs := Some [rawCACert];
                        Certificates := Certificates tlsConfig |}
         end
       else Ok tlsConfig) ;;
    tlsConfig <-
      (if negb (is_empty (TLSCert config)) || negb (is_empty (TLSKey config))
       then
         match tls_LoadX509KeyPair E (TLSCert config) (TLSKey config) with
         | Err err => Err (errors_Wrap err "load x509 keypair error")
         | Ok cert => Ok {| RootCAs := RootCAs tlsConfig;
                            Certificates := [cert] |}
         end
       else Ok tlsConfig) ;;
    Ok {| server := Server config;
          httpClient := http_ClientWithTransport tlsConfig;
          protocolVersion := "";
          senderID := "";
          receiverID := "";
          redisClient := None;
          asyncTimeout := 0 |}.

(** The exported methods that only read the client. *)
Module Client.

Definition GetSenderID (c : client) : string := senderID c.

Definition GetReceiverID (c : client) : string := receiverID c.

(** [c.redisClient != nil]. *)
Definition IsAsync (c : client) : bool :=
  match redisClient c with
  | Some _ => true
  | None => false
  end.

End Client.

(** ** The request procedure

    [request] starts a listener goroutine (in async mode) and carries on with
    the HTTP send while the goroutine runs; the peer may publish and time
    passes in between.  The procedure is modelled as a machine whose state
    holds the position of both threads, the two buffered channels, the
    subscription at the broker and a clock; a schedule says which thread (or
    the peer, or the clock) moves next. *)

(** What the outside can see, in the order it happens. *)
Inductive event : Type :=
| EvGo (key : string)                 (* [go func() {...}()] *)
| EvSubscribe (key : string)          (* [c.redisClient.Subscribe(key)] *)
| EvSubClose (key : string)           (* the deferred [sub.Close()] *)
| EvPost (srv : string) (body : bytes) (* [c.httpClient.Post(...)] *)
| EvBodyClose                         (* the deferred [resp.Body.Close()] *)
| EvPublished (key : string) (payload : string) (delivered : bool)
| EvReturn (err : option error).      (* [request] returns *)

(** Where the calling thread is in [request]. *)
Inductive main_pc : Type :=
| MMarshal                      (* [b, err := json.Marshal(pl)] *)
| MGo (b : bytes)               (* [if c.IsAsync() { key := ...; go ... }] *)
| MPost (b : bytes)             (* [resp, err := c.httpClient.Post(...)] *)
| MRead (resp : http_Response)  (* [if !c.IsAsync() { ioutil.ReadAll ... }] *)
| MSelect                       (* [select { case err := <-errorChan ... }] *)
| MReturned (err : option error).

(** Where the listener goroutine is: in [readAsync], then in the send of its
    result. *)
Inductive go_pc : Type :=
| GSubscribe                    (* [sub := c.redisClient.Subscribe(key)] *)
| GArm                          (* [ch := sub.Channel()], [time.After(...)] *)
| GSelect (deadline : Z)        (* [select { case msg := <-ch ...}] *)
| GClose (r : result bytes)     (* [return ...], the deferred [sub.Close()] *)
| GSend (r : result bytes)      (* [errorChan <- err] or [responseChan <- bb] *)
| GDone.

Record state (A : Type) : Type := mkState {
  s_main : main_pc;
  s_go : option go_pc;            (* [None]: no goroutine was started *)
  s_responseChan : option bytes;  (* [make(chan []byte, 1)] *)
  s_errorChan : option error;     (* [make(chan error, 1)] *)
  s_ans : A;                      (* [*ans] *)
  s_subscribed : bool;            (* the broker holds the subscription *)
  s_queue : list string;          (* messages waiting on [sub.Channel()] *)
  s_clock : Z;
  s_trace : list event            (* oldest first *)
}.
Arguments mkState {A} _ _ _ _ _ _ _ _ _.
Arguments s_main {A} _.
Arguments s_go {A} _.
Arguments s_responseChan {A} _.
Arguments s_errorChan {A} _.
Arguments s_ans {A} _.
Arguments s_subscribed {A} _.
Arguments s_queue {A} _.
Arguments s_clock {A} _.
Arguments s_trace {A} _.

(** One move of the schedule.  [tie] settles a [select] in which both cases
    are ready (Go picks one at random): [true] takes the first case. *)
Inductive action : Type :=
| Main (tie : bool)
| Go (tie : bool)
| Publish (key : string) (payload : string)
| Tick (d : N).

Section Request.

Variable E : Env.
Variable op : Operation.
Variable c : client.
Variable pl : ReqPayload (ReqBody E op).

Let Ans : Type := AnsPayload (AnsBody E op).
Let St : Type := state Ans.

(** [c.getAsyncKey(pl.GetBasePayload().MessageType,
    pl.GetBasePayload().TransactionID)]. *)
Definition request_key : string :=
  getAsyncKey (BasePayload.MessageType (req_base pl))
              (BasePayload.TransactionID (req_base pl)).

Definition set_main (s : St) (pc : main_pc) : St :=
  mkState pc (s_go s) (s_responseChan s) (s_errorChan s) (s_ans s)
          (s_subscribed s) (s_queue s) (s_clock s) (s_trace s).

Definition set_go (s : St) (pc : go_pc) : St :=
  mkState (s_main s) (Some pc) (s_responseChan s) (s_errorChan s) (s_ans s)
          (s_subscribed s) (s_queue s) (s_clock s) (s_trace s).

Definition emit (s : St) (ev : event) : St :=
  mkState (s_main s) (s_go s) (s_responseChan s) (s_errorChan s) (s_ans s)
          (s_subscribed s) (s_queue s) (s_clock s) (s_trace s ++ [ev]).

(** [return err] from [request]. *)
Definition ret (s : St) (err : option error) : St :=
  emit (set_main s (MReturned err)) (EvReturn err).

(** The calling thread runs its next statement; a blocked or finished thread
    stays where it is. *)
Definition main_step (tie : bool) (s : St) : St :=
  match s_main s with
  | MMarshal =>
      match json_Marshal_req E op pl with
      | Err err => ret s (Some (errors_Wrap err "json marshal error"))
      | Ok b => set_main s (MGo b)
      end
  | MGo b =>
      if Client.IsAsync c
      then emit (set_main (set_go s GSubscribe) (MPost b)) (EvGo request_key)
      else set_main s (MPost b)
  | MPost b =>
      let s := emit s (EvPost (server c) b) in
      match http_Post E (httpClient c) (server c) b with
      | Err err => ret s (Some (errors_Wrap err "http post error"))
      | Ok resp => set_main s (MRead resp)
      end
  | MRead resp =>
      if negb (Client.IsAsync c) then
        match Body resp with
        | Err err =>
            match s_errorChan s with
            | None =>
                mkState MSelect (s_go s) (s_responseChan s) (Some err)
                        (s_ans s) (s_subscribed s) (s_queue s) (s_clock s)
                        (s_trace s)
            | Some _ => s
            end
        | Ok bb =>
            match s_responseChan s with
            | None =>
                mkState MSelect (s_go s) (Some bb) (s_errorChan s)
                        (s_ans s) (s_subscribed s) (s_queue s) (s_clock s)
                        (s_trace s)
            | Some _ => s
            end
        end
      else set_main s MSelect
  | MSelect =>
      let take_err (err : error) :=
        ret (emit (mkState (s_main s) (s_go s) (s_responseChan s) None
                           (s_ans s) (s_subscribed s) (s_queue s) (s_clock s)
                           (s_trace s)) EvBodyClose)
            (Some err) in
      let take_resp (bb : bytes) :=
        let (ans, uerr) := json_Unmarshal E op bb (s_ans s) in
        let s := emit (mkState (s_main s) (s_go s) None (s_errorChan s)
                               ans (s_subscribed s) (s_queue s) (s_clock s)
                               (s_trace s)) EvBodyClose in
        match uerr with
        | Some err => ret s (Some (errors_Wrap err "unmarshal response error"))
        | None => ret s None
        end in
      match s_errorChan s, s_responseChan s with
      | Some err, Some bb => if tie then take_err err else take_resp bb
      | Some err, None => take_err err
      | None, Some bb => take_resp bb
      | None, None => s
      end
  | MReturned _ => s
  end.

(** The listener goroutine runs its next statement. *)
Definition go_step (tie : bool) (s : St) : St :=
  match s_go s with
  | None => s
  | Some GSubscribe =>
      match redisClient c with
      | None => s
      | Some _ =>
          emit (mkState (s_main s) (Some GArm) (s_responseChan s)
                        (s_errorChan s) (s_ans s) true (s_queue s) (s_clock s)
                        (s_trace s))
               (EvSubscribe request_key)
      end
  | Some GArm => set_go s (GSelect (s_clock s + asyncTimeout c))
  | Some (GSelect deadline) =>
      let take_msg (m : string) (q : list string) :=
        mkState (s_main s) (Some (GClose (Ok (bytes_of_string m))))
                (s_responseChan s) (s_errorChan s) (s_ans s) (s_subscribed s)
                q (s_clock s) (s_trace s) in
      let time_out := set_go s (GClose (Err ErrAsyncTimeout)) in
      match s_queue s, Z.leb deadline (s_clock s) with
      | m :: q, true => if tie then take_msg m q else time_out
      | m :: q, false => take_msg m q
      | [], true => time_out
      | [], false => s
      end
  | Some (GClose r) =>
      emit (mkState (s_main s) (Some (GSend r)) (s_responseChan s)
                    (s_errorChan s) (s_ans s) false (s_queue s) (s_clock s)
                    (s_trace s))
           (EvSubClose request_key)
  | Some (GSend (Err err)) =>
      match s_errorChan s with
      | None =>
          mkState (s_main s) (Some GDone) (s_responseChan s) (Some err)
                  (s_ans s) (s_subscribed s) (s_queue s) (s_clock s)
                  (s_trace s)
      | Some _ => s
      end
  | Some (GSend (Ok bb)) =>
      match s_responseChan s with
      | None =>
          mkState (s_main s) (Some GDone) (Some bb) (s_errorChan s)
                  (s_ans s) (s_subscribed s) (s_queue s) (s_clock s)
                  (s_trace s)
      | Some _ => s
      end
  | Some GDone => s
  end.

(** The peer publishes [payload] on [key]: the broker hands it to the
    subscription if it is registered on that key at that moment, and drops it
    otherwise. *)
Definition publish_step (key payload : string) (s : St) : St :=
  let delivered := s_subscribed s && String.eqb key request_key in
  emit (mkState (s_main s) (s_go s) (s_responseChan s) (s_errorChan s)
                (s_ans s) (s_subscribed s)
                (if delivered then s_queue s ++ [payload] else s_queue s)
                (s_clock s) (s_trace s))
       (EvPublished key payload delivered).

Definition tick_step (d : N) (s : St) : St :=
  mkState (s_main s) (s_go s) (s_responseChan s) (s_errorChan s) (s_ans s)
          (s_subscribed s) (s_queue s) (s_clock s + Z.of_N d) (s_trace s).

Definition step (a : action) (s : St) : St :=
  match a with
  | Main tie => main_step tie s
  | Go tie => go_step tie s
  | Publish key payload => publish_step key payload s
  | Tick d => tick_step d s
  end.

Fixpoint run (sched : list action) (s : St) : St :=
  match sched with
  | [] => s
  | a :: rest => run rest (step a s)
  end.

(** The state in which [request(ctx, pl, &ans)] is entered. *)
Definition init (ans : Ans) : St :=
  mkState MMarshal None None None ans false [] 0 [].

(** [request] under a schedule: the value left in [*ans] and the error
    returned, or [None] when the schedule ends before [request] returns. *)
Definition request (ans : Ans) (sched : list action)
  : option (Ans * option error) :=
  let s := run sched (init ans) in
  match s_main s with
  | MReturned err => Some (s_ans s, err)
  | _ => None
  end.

End Request.

(** ** The five operations *)

(** The four assignments that open every operation:
    [pl.BasePayload.ProtocolVersion = c.protocolVersion], [SenderID],
    [ReceiverID], [MessageType]. *)
Definition stamp {B : Type} (c : client) (typ : MessageType)
  (pl : ReqPayload B) : ReqPayload B :=
  {| req_base :=
       {| BasePayload.ProtocolVersion := protocolVersion c;
          BasePayload.SenderID := senderID c;
          BasePayload.ReceiverID := receiverID c;
          BasePayload.TransactionID := BasePayload.TransactionID (req_base pl);
          BasePayload.MessageType := typ |};
     req_body := req_body pl |}.

(** [var ans ...AnsPayload]: the zero value. *)
Definition zero_ans (E : Env) (op : Operation) : AnsPayload (AnsBody E op) :=
  {| ans_base := BasePayload.mk "" "" "" 0%N "";
     ans_result := Result.mk "" "";
     ans_body := zero_body E op |}.

(** [fmt.Errorf("response error, code: %s, description: %s", ...)]. *)
Definition response_error (r : Result.t) : error :=
  fmt_Errorf ("response error, code: " ++ Result.ResultCode r
              ++ ", description: " ++ Result.Description r).

(** What every operation does with the outcome of [request]. *)
Definition check_result {B : Type}
  (r : option (AnsPayload B * option error))
  : option (AnsPayload B * option error) :=
  match r with
  | None => None
  | Some (ans, Some err) => Some (ans, Some err)
  | Some (ans, None) =>
      if negb (String.eqb (Result.ResultCode (ans_result ans)) Success)
      then Some (ans, Some (response_error (ans_result ans)))
      else Some (ans, None)
  end.

(** How a call of [writeAsync] ends: it returns, or it dereferences a nil
    [redisClient]. *)
Inductive outcome : Type :=
| Returns (err : option error)
| Panics.

(** [writeAsync]: the publish it asks of the broker (key and body), if it
    gets that far, and how it ends. *)
Definition writeAsync (E : Env) (op : Operation) (c : client)
  (typ : MessageType) (pl : AnsPayload (AnsBody E op))
  : option (string * bytes) * outcome :=
  match json_Marshal_ans E op pl with
  | Err err => (None, Returns (Some (errors_Wrap err "marshal answer error")))
  | Ok b =>
      match redisClient c with
      | None => (None, Panics)
      | Some rc =>
          let key :=
            getAsyncKey typ (BasePayload.TransactionID (ans_base pl)) in
          match redis_Publish E rc key b with
          | Some err =>
              (Some (key, b),
               Returns (Some (errors_Wrap err "publish answer error")))
          | None => (Some (key, b), Returns None)
          end
      end
  end.

Module Ops.

(** The handlers of async answers come first: below them the names of the
    request methods hide the message-type tags of the same name. *)
Definition HandleAsyncPRStartAns (E : Env) (c : client)
  (pl : AnsPayload (AnsBody E OpPRStart)) :=
  writeAsync E OpPRStart c PRStartReq pl.

Definition HandleAsyncPRStopAns (E : Env) (c : client)
  (pl : AnsPayload (AnsBody E OpPRStop)) :=
  writeAsync E OpPRStop c PRStopReq pl.

Definition HandleAsyncXmitDataAns (E : Env) (c : client)
  (pl : AnsPayload (AnsBody E OpXmitData)) :=
  writeAsync E OpXmitData c XmitDataReq pl.

Definition HandleAsyncProfileAns (E : Env) (c : client)
  (pl : AnsPayload (AnsBody E OpProfile)) :=
  writeAsync E OpProfile c ProfileReq pl.

Definition HandleAsyncHomeNSAns (E : Env) (c : client)
  (pl : AnsPayload (AnsBody E OpHomeNS)) :=
  writeAsync E OpHomeNS c HomeNSReq pl.

Definition PRStartReq (E : Env) (c : client)
  (pl : ReqPayload (ReqBody E OpPRStart)) (sched : list action) :=
  let pl := stamp c PRStartReq pl in
  check_result (request E OpPRStart c pl (zero_ans E OpPRStart) sched).

Definition PRStopReq (E : Env) (c : client)
  (pl : ReqPayload (ReqBody E OpPRStop)) (sched : list action) :=
  let pl := stamp c PRStopReq pl in
  check_result (request E OpPRStop c pl (zero_ans E OpPRStop) sched).

Definition XmitDataReq (E : Env) (c : client)
  (pl : ReqPayload (ReqBody E OpXmitData)) (sched : list action) :=
  let pl := stamp c XmitDataReq pl in
  check_result (request E OpXmitData c pl (zero_ans E OpXmitData) sched).

Definition ProfileReq (E : Env) (c : client)
  (pl : ReqPayload (ReqBody E OpProfile)) (sched : list action) :=
  let pl := stamp c ProfileReq pl in
  check_result (request E OpProfile c pl (zero_ans E OpProfile) sched).

Definition HomeNSReq (E : Env) (c : client)
  (pl : ReqPayload (ReqBody E OpHomeNS)) (sched : list action) :=
  let pl := stamp c HomeNSReq pl in
  check_result (request E OpHomeNS c pl (zero_ans E OpHomeNS) sched).

End Ops.

(** ** Pushing an answer, and transaction ids *)

(** [%d] of an [int]. *)
Definition fmt_int (z : Z) : string :=
  if Z.ltb z 0 then "-" ++ fmt_d (Z.to_N (- z)) else fmt_d (Z.to_N z).

(** [SendAnswer]: what it hands to the transport and the error it returns.
    The body of the response is read only when the status is not 200. *)
Definition SendAnswer (E : Env) (op : Operation) (c : client)
  (pl : AnsPayload (AnsBody E op)) : list event * option error :=
  match json_Marshal_ans E op pl with
  | Err err => ([], Some (errors_Wrap err "json marshal error"))
  | Ok b =>
      match http_Post E (httpClient c) (server c) b with
      | Err err =>
          ([EvPost (server c) b],
           Some (errors_Wrap err "http post error"))
      | Ok resp =>
          if negb (Z.eqb (StatusCode resp) 200) then
            match Body resp with
            | Err err =>
                ([EvPost (server c) b; EvBodyClose],
                 Some (errors_Wrap err "read body error"))
            | Ok bb =>
                ([EvPost (server c) b; EvBodyClose],
                 Some (fmt_Errorf
                         ("expected: 200, got: " ++ fmt_int (StatusCode resp)
                          ++ " (" ++ string_of_bytes bb ++ ")")))
            end
          else ([EvPost (server c) b; EvBodyClose], None)
      end
  end.

(** [binary.LittleEndian.Uint32(b)]:
    [uint32(b[0]) | uint32(b[1])<<8 | uint32(b[2])<<16 | uint32(b[3])<<24];
    a shorter slice makes it panic ([None]). *)
Definition LittleEndian_Uint32 (b : bytes) : option uint32 :=
  match b with
  | b0 :: b1 :: b2 :: b3 :: _ =>
      Some (N.lor (N.lor (N.lor (Byte.to_N b0)
                                (N.shiftl (Byte.to_N b1) 8))
                         (N.shiftl (Byte.to_N b2) 16))
                  (N.shiftl (Byte.to_N b3) 24))
  | _ => None
  end.

(** The slice [b] after the bytes [w] were written at its start: a slice
    keeps its length, whatever the callee does. *)
Definition written (b w : bytes) : bytes :=
  firstn (length b) (w ++ skipn (length w) b).

(** [GetRandomTransactionID].  [rand_Read] stands for [rand.Read(b)], a call
    into the runtime: it either returns, having written bytes into the
    buffer ([Some]; the count and the error it reports are not looked at),
    or, in the releases of Go whose [crypto/rand] treats a failing source as
    fatal, it ends the process ([None]).  The result is [None] when no id is
    returned. *)
Definition GetRandomTransactionID (rand_Read : bytes -> option bytes)
  : option uint32 :=
  let b := [Byte.x00; Byte.x00; Byte.x00; Byte.x00] in
  match rand_Read b with
  | Some w => LittleEndian_Uint32 (written b w)
  | None => None
  end.

(** ** A concrete world

    A small world to run the client in: payloads without operation fields, a
    line-oriented stand-in for the JSON codec ([code|description] for an
    answer), certificate files that load, a broker that accepts every
    publish, and an HTTP peer whose reply is given. *)

Fixpoint split_bar (s : string) : option (string * string) :=
  match s with
  | EmptyString => None
  | String a rest =>
      if Ascii.eqb a "|"%char then Some (EmptyString, rest)
      else match split_bar rest with
           | Some (l, r) => Some (String a l, r)
           | None => None
           end
  end.

Definition toy_marshal_req (pl : ReqPayload unit) : result bytes :=
  let b := req_base pl in
  Ok (bytes_of_string
        (BasePayload.ProtocolVersion b ++ "|" ++ BasePayload.SenderID b
         ++ "|" ++ BasePayload.ReceiverID b ++ "|"
         ++ fmt_d (BasePayload.TransactionID b) ++ "|"
         ++ BasePayload.MessageType b)).

Definition toy_marshal_ans (pl : AnsPayload unit) : result bytes :=
  Ok (bytes_of_string
        (Result.ResultCode (ans_result pl) ++ "|"
         ++ Result.Description (ans_result pl))).

Definition toy_unmarshal (bb : bytes) (ans : AnsPayload unit)
  : AnsPayload unit * option error :=
  match split_bar (string_of_bytes bb) with
  | Some (code, desc) =>
      ({| ans_base := ans_base ans;
          ans_result := Result.mk code desc;
          ans_body := ans_body ans |}, None)
  | None => (ans, Some (lib_error "unexpected end of JSON input"))
  end.

Definition toy_env (post : result http_Response) : Env :=
  {| ReqBody := fun _ => unit;
     AnsBody := fun _ => unit;
     zero_body := fun _ => tt;
     json_Marshal_req := fun _ => toy_marshal_req;
     json_Marshal_ans := fun _ => toy_marshal_ans;
     json_Unmarshal := fun _ => toy_unmarshal;
     http_Post := fun _ _ _ => post;
     redis_Publish := fun _ _ _ => None;
     ioutil_ReadFile := fun _ => Ok [];
     AppendCertsFromPEM := fun _ => true;
     tls_LoadX509KeyPair := fun _ _ => Ok [] |}.

(** The peer acknowledges with 200 and an empty body; the peer is
    unreachable; the peer answers in the body. *)
Definition env_ack : Env := toy_env (Ok (mkResponse 200 (Ok []))).
Definition env_down : Env := toy_env (Err (lib_error "connection refused")).
Definition env_reply (status : Z) (body : string) : Env :=
  toy_env (Ok (mkResponse status (Ok (bytes_of_string body)))).

Definition broker : redis_Client := mkRedis "localhost:6379".

(** A configuration without TLS settings, sync and async, and one with a
    client certificate. *)
Definition cfg_sync : ClientConfig :=
  mkClientConfig "010203" "040506" "http://peer/" "" "" "" None 0.
Definition cfg_async : ClientConfig :=
  mkClientConfig "010203" "040506" "http://peer/" "" "" ""
                 (Some broker) 2000000000.
Definition cfg_tls : ClientConfig :=
  mkClientConfig "010203" "040506" "https://peer/" "" "cert.pem" "key.pem"
                 (Some broker) 2000000000.

Definition cl_sync : client :=
  mkClient "http://peer/" http_DefaultClient ProtocolVersion1_0
           "010203" "040506" None 0.
Definition cl_async : client :=
  mkClient "http://peer/" http_DefaultClient ProtocolVersion1_0
           "010203" "040506" (Some broker) 2000000000.

(** The client that [NewClient] makes of [cfg_tls]. *)
Definition cl_tls : client :=
  mkClient "https://peer/" (http_ClientWithTransport (mkTLS None [[]]))
           "" "" "" None 0.

(** A Start request with transaction id 7, as the caller hands it over. *)
Definition start7 : ReqPayload unit :=
  mkReqPayload (BasePayload.mk "" "" "" 7%N "") tt.

(** Schedules.  [sched_sync]: the calling thread alone.  [sched_listen_first]:
    the goroutine subscribes and arms its timer before the send, the answer
    is published half a second later.  [sched_send_first]: the calling thread
    sends before the goroutine has run, and the peer answers at once.
    [sched_silence]: nothing is published and the timer fires. *)
Definition sched_sync : list action :=
  [Main true; Main true; Main true; Main true; Main true].
Definition sched_listen_first (answer : string) : list action :=
  [Main true; Main true; Go true; Go true; Main true; Tick 500000000;
   Publish "lora:backend:async:PRStartReq:7" answer;
   Go true; Go true; Go true; Main true; Main true].
Definition sched_send_first (answer : string) : list action :=
  [Main true; Main true; Main true;
   Publish "lora:backend:async:PRStartReq:7" answer;
   Go true; Go true; Tick 2000000000; Go true; Go true; Go true;
   Main true; Main true].
Definition sched_silence (d : N) : list action :=
  [Main true; Main true; Go true; Go true; Main true; Tick d;
   Go true; Go true; Go true; Main true; Main true].
Definition sched_post_fails (answer : string) : list action :=
  [Main true; Main true; Go true; Go true;
   Publish "lora:backend:async:PRStartReq:7" answer; Main true].

(** An operation by its tag: the request method of [op]. *)
Definition call (E : Env) (op : Operation)
  : client -> ReqPayload (ReqBody E op) -> list action ->
    option (AnsPayload (AnsBody E op) * option error) :=
  match op with
  | OpPRStart => Ops.PRStartReq E
  | OpPRStop => Ops.PRStopReq E
  | OpXmitData => Ops.XmitDataReq E
  | OpProfile => Ops.ProfileReq E
  | OpHomeNS => Ops.HomeNSReq E
  end.

(** The handler of the async answer of [op]. *)
Definition handle (E : Env) (op : Operation)
  : client -> AnsPayload (AnsBody E op) -> option (string * bytes) * outcome :=
  match op with
  | OpPRStart => Ops.HandleAsyncPRStartAns E
  | OpPRStop => Ops.HandleAsyncPRStopAns E
  | OpXmitData => Ops.HandleAsyncXmitDataAns E
  | OpProfile => Ops.HandleAsyncProfileAns E
  | OpHomeNS => Ops.HandleAsyncHomeNSAns E
  end.

(** The events of [call E op c pl sched]. *)
Definition call_trace (E : Env) (op : Operation) (c : client)
  (pl : ReqPayload (ReqBody E op)) (sched : list action) : list event :=
  s_trace (run E op c (stamp c (tag_of op) pl) sched
               (init E op (zero_ans E op))).

(** ** Notions used by the properties *)

(** No [':'] in a string. *)
Fixpoint colon_free (s : string) : bool :=
  match s with
  | EmptyString => true
  | String a rest => negb (Ascii.eqb a ":"%char) && colon_free rest
  end.

(** The bodies handed to [httpClient.Post], in order. *)
Fixpoint posts (tr : list event) : list (string * bytes) :=
  match tr with
  | [] => []
  | EvPost srv body :: rest => (srv, body) :: posts rest
  | _ :: rest => posts rest
  end.

(** Every send in the trace comes after a [Subscribe]: [armed] says whether
    one has been seen so far. *)
Fixpoint listen_before_send (armed : bool) (tr : list event) : bool :=
  match tr with
  | [] => true
  | EvSubscribe _ :: rest => listen_before_send true rest
  | EvPost _ _ :: rest => armed && listen_before_send armed rest
  | _ :: rest => listen_before_send armed rest
  end.

(** Every send in the trace comes after the [go] statement. *)
Fixpoint go_before_send (started : bool) (tr : list event) : bool :=
  match tr with
  | [] => true
  | EvGo _ :: rest => go_before_send true rest
  | EvPost _ _ :: rest => started && go_before_send started rest
  | _ :: rest => go_before_send started rest
  end.

(** The [go] statement has been run at some point of the trace. *)
Definition is_go (ev : event) : bool :=
  match ev with
  | EvGo _ => true
  | _ => false
  end.

Definition go_started (tr : list event) : bool := existsb is_go tr.

(** A message reached the subscription at some point of the trace. *)
Definition is_delivery (ev : event) : bool :=
  match ev with
  | EvPublished _ _ true => true
  | _ => false
  end.

Definition delivered (tr : list event) : bool := existsb is_delivery tr.

(** The number of moves of the calling thread in a schedule. *)
Fixpoint main_moves (sched : list action) : nat :=
  match sched with
  | [] => 0
  | Main _ :: rest => S (main_moves rest)
  | _ :: rest => main_moves rest
  end.

(** The position of the calling thread after [n] of its moves, when it walks
    along [path] and then rests at [final]. *)
Definition pc_after (path : list main_pc) (final : main_pc) (n : nat)
  : main_pc :=
  nth n path final.

(** [errors.Wrap] of an optional error. *)
Definition wrap_opt (err : option error) (msg : string) : option error :=
  match err with
  | Some e => Some (errors_Wrap e msg)
  | None => None
  end.

(** What the calling thread makes of a response body read in sync mode: the
    value left in [*ans] and the error returned. *)
Definition decode_body (E : Env) (op : Operation)
  (ans : AnsPayload (AnsBody E op)) (body : result bytes)
  : AnsPayload (AnsBody E op) * option error :=
  match body with
  | Ok bb =>
      let (ans', uerr) := json_Unmarshal E op bb ans in
      (ans', wrap_opt uerr "unmarshal response error")
  | Err err => (ans, Some err)
  end.

(** What an event of a run of [request] on [pl] must look like: a send goes
    to the configured server and carries the marshalled payload; the
    goroutine and its subscription use the key of the payload. *)
Definition event_ok (E : Env) (op : Operation) (c : client)
  (pl : ReqPayload (ReqBody E op)) (ev : event) : Prop :=
  match ev with
  | EvPost srv body => srv = server c /\ json_Marshal_req E op pl = Ok body
  | EvGo key | EvSubscribe key | EvSubClose key =>
      key = getAsyncKey (BasePayload.MessageType (req_base pl))
                        (BasePayload.TransactionID (req_base pl))
  | _ => True
  end.

Definition trace_inv (E : Env) (op : Operation) (c : client)
  (pl : ReqPayload (ReqBody E op)) (s : state (AnsPayload (AnsBody E op)))
  : Prop :=
  match s_main s with
  | MGo b | MPost b => json_Marshal_req E op pl = Ok b
  | _ => True
  end
  /\ Forall (event_ok E op c pl) (s_trace s).

(** Async mode.  How [request] can have returned [err]: the body did not
    marshal, the send failed, or the calling thread took the goroutine's
    result from a channel (and then the goroutine is done). *)
Definition returned_by (E : Env) (op : Operation) (c : client)
  (pl : ReqPayload (ReqBody E op)) (s : state (AnsPayload (AnsBody E op)))
  (err : option error) : Prop :=
  (exists e, json_Marshal_req E op pl = Err e
             /\ err = Some (errors_Wrap e "json marshal error"))
  \/ (exists b e, json_Marshal_req E op pl = Ok b
                  /\ http_Post E (httpClient c) (server c) b = Err e
                  /\ err = Some (errors_Wrap e "http post error"))
  \/ (exists b resp, json_Marshal_req E op pl = Ok b
                     /\ http_Post E (httpClient c) (server c) b = Ok resp
                     /\ s_go s = Some GDone
                     /\ (delivered (s_trace s) = false ->
                         err = Some ErrAsyncTimeout)).

(** Where the calling thread is tells what has succeeded so far. *)
Definition main_inv (E : Env) (op : Operation) (c : client)
  (pl : ReqPayload (ReqBody E op)) (s : state (AnsPayload (AnsBody E op)))
  : Prop :=
  match s_main s with
  | MMarshal => s_go s = None
  | MGo b => s_go s = None /\ json_Marshal_req E op pl = Ok b
  | MPost b => json_Marshal_req E op pl = Ok b
  | MRead _ | MSelect =>
      exists b resp, json_Marshal_req E op pl = Ok b
                     /\ http_Post E (httpClient c) (server c) b = Ok resp
  | MReturned err => returned_by E op c pl s err
  end.

(** Where the goroutine is tells the state of the channels and of the
    subscription: the channels are empty until the goroutine is done, and the
    subscription is gone once [readAsync] has returned. *)
Definition go_inv {A : Type} (s : state A) : Prop :=
  match s_go s with
  | None | Some GSubscribe =>
      s_responseChan s = None /\ s_errorChan s = None
      /\ s_subscribed s = false /\ s_queue s = []
  | Some GArm | Some (GSelect _) | Some (GClose _) =>
      s_responseChan s = None /\ s_errorChan s = None
  | Some (GSend _) =>
      s_responseChan s = None /\ s_errorChan s = None
      /\ s_subscribed s = false
  | Some GDone => s_subscribed s = false
  end.

(** As long as no message has reached the subscription, the goroutine can
    only have timed out. *)
Definition silent_inv {A : Type} (s : state A) : Prop :=
  delivered (s_trace s) = false ->
  s_queue s = [] /\ s_responseChan s = None
  /\ (forall e, s_errorChan s = Some e -> e = ErrAsyncTimeout)
  /\ (forall r, s_go s = Some (GClose r) \/ s_go s = Some (GSend r) ->
                r = Err ErrAsyncTimeout).

Definition async_inv (E : Env) (op : Operation) (c : client)
  (pl : ReqPayload (ReqBody E op)) (s : state (AnsPayload (AnsBody E op)))
  : Prop :=
  main_inv E op c pl s /\ go_inv s /\ silent_inv s.

(** * Properties *)

(** ** The correlation key *)

Lemma append_colon_free (s t : string) :
  colon_free (s ++ t) = colon_free s && colon_free t.
Proof.
  induction s as [|a s IH]; simpl; [reflexivity|].
  rewrite IH. now rewrite andb_assoc.
Qed.

Lemma digits_colon_free (d : Decimal.uint) :
  colon_free (NilEmpty.string_of_uint d) = true.
Proof. induction d; simpl; auto. Qed.

Lemma fmt_d_colon_free (n : N) : colon_free (fmt_d n) = true.
Proof.
  unfold fmt_d, NilZero.string_of_uint.
  destruct (N.to_uint n); try reflexivity; apply digits_colon_free.
Qed.

Lemma to_uint_not_nil (n : N) : N.to_uint n <> Decimal.Nil.
Proof.
  destruct n as [|p]; simpl; [discriminate|].
  apply DecimalPos.Unsigned.to_uint_nonnil.
Qed.

Lemma fmt_d_inj (n m : N) : fmt_d n = fmt_d m -> n = m.
Proof.
  unfold fmt_d. intros H.
  apply DecimalN.Unsigned.to_uint_inj.
  assert (Hn := NilZero.usu _ (to_uint_not_nil n)).
  assert (Hm := NilZero.usu _ (to_uint_not_nil m)).
  rewrite H in Hn. congruence.
Qed.

(** The last colon of a key separates the message type from the digits:
    a digit string holds no colon, so the split is unique. *)
Lemma split_at_last_colon (t1 t2 d1 d2 : string) :
  colon_free d1 = true -> colon_free d2 = true ->
  t1 ++ ":" ++ d1 = t2 ++ ":" ++ d2 -> t1 = t2 /\ d1 = d2.
Proof.
  revert t2. induction t1 as [|a t1 IH]; intros [|b t2] H1 H2 Heq; simpl in Heq.
  - injection Heq as ->. auto.
  - injection Heq as <- ->.
    rewrite append_colon_free in H1. simpl in H1.
    rewrite andb_false_r in H1. discriminate.
  - injection Heq as -> <-.
    rewrite append_colon_free in H2. simpl in H2.
    rewrite andb_false_r in H2. discriminate.
  - injection Heq as -> Heq.
    destruct (IH t2 H1 H2 Heq) as [-> ->]. auto.
Qed.

Lemma getAsyncKey_inj (t1 t2 : MessageType) (i1 i2 : uint32) :
  getAsyncKey t1 i1 = getAsyncKey t2 i2 -> t1 = t2 /\ i1 = i2.
Proof.
  unfold getAsyncKey. intros H.
  assert (H' : t1 ++ ":" ++ fmt_d i1 = t2 ++ ":" ++ fmt_d i2).
  { simpl in H. now injection H. }
  apply split_at_last_colon in H'; try apply fmt_d_colon_free.
  destruct H' as [-> H']. split; [reflexivity|now apply fmt_d_inj].
Qed.

(** ** Runs of the request machine *)

(** Case analysis on one move: open the state, unfold the move, and split on
    everything the move looks at. *)
Ltac open_step :=
  unfold step, main_step, go_step, publish_step, tick_step,
         ret, emit, set_main, set_go, Client.IsAsync in *;
  simpl in *.

Ltac split_match :=
  match goal with
  | |- context [match ?x with _ => _ end] =>
      lazymatch x with
      | context [match _ with _ => _ end] => fail
      | _ => destruct x eqn:?
      end
  end; simpl in *.

Ltac step_cases := open_step; repeat split_match.

(** The same on a named equation [H : s' = step a s]: the move is unfolded
    once, there, and the cases are split before the goal is looked at. *)
Ltac split_match_in H :=
  match type of H with
  | context [match ?x with _ => _ end] =>
      lazymatch x with
      | context [match _ with _ => _ end] => fail
      | _ => destruct x eqn:?
      end
  end; simpl in H.

Ltac step_in H :=
  unfold step, main_step, go_step, publish_step, tick_step,
         ret, emit, set_main, set_go, Client.IsAsync in H;
  try match goal with
      | Hmode : redisClient _ = _ |- _ => rewrite Hmode in H
      end;
  simpl in H; repeat split_match_in H.

Lemma posts_app (tr1 tr2 : list event) :
  posts (tr1 ++ tr2) = (posts tr1 ++ posts tr2)%list.
Proof.
  induction tr1 as [|ev tr1 IH]; simpl; auto.
  destruct ev; simpl; rewrite ?IH; auto.
Qed.

Lemma main_moves_app (l1 l2 : list action) :
  main_moves (l1 ++ l2) = main_moves l1 + main_moves l2.
Proof.
  induction l1 as [|x l1 IH]; simpl; auto.
  destruct x; simpl; rewrite ?IH; auto.
Qed.

Section Runs.

Variable E : Env.
Variable op : Operation.
Variable c : client.
Variable pl : ReqPayload (ReqBody E op).
Variable ans : AnsPayload (AnsBody E op).

Let St : Type := state (AnsPayload (AnsBody E op)).

Lemma run_app (s1 s2 : list action) (s : St) :
  run E op c pl (s1 ++ s2) s = run E op c pl s2 (run E op c pl s1 s).
Proof. revert s. induction s1 as [|a s1 IH]; intros s; simpl; auto. Qed.

(** A property of the entry state that every move preserves holds all along
    every run. *)
Lemma run_invariant (I : St -> Prop) :
  (forall a s, I s -> I (step E op c pl a s)) ->
  forall sched s, I s -> I (run E op c pl sched s).
Proof.
  intros Hstep sched. induction sched as [|a rest IH]; intros s Hs; simpl; auto.
Qed.

(** Moves of the goroutine, of the peer and of the clock leave the calling
    thread and [*ans] alone. *)
Lemma other_moves_frame (a : action) (s : St) :
  main_moves [a] = 0 ->
  s_main (step E op c pl a s) = s_main s /\ s_ans (step E op c pl a s) = s_ans s.
Proof.
  destruct s, a; simpl; intros H; try discriminate;
    step_cases; auto.
Qed.

(** *** What a run emits *)

Lemma trace_inv_step (a : action) (s : St) :
  trace_inv E op c pl s -> trace_inv E op c pl (step E op c pl a s).
Proof.
  unfold trace_inv. intros [Hpc Htr].
  destruct s as [m g rch ech an sub q clk tr].
  remember (step E op c pl a (mkState m g rch ech an sub q clk tr)) as s'
    eqn:Hs'.
  simpl in *.
  destruct a as [tie|tie|key payload|d];
    [destruct m|destruct g as [[| | | |[|]|]|]| |];
    step_in Hs'; subst s'; simpl; unfold request_key;
    repeat (split || apply Forall_app || apply Forall_cons
            || apply Forall_nil);
    simpl; auto.
Qed.

Lemma trace_inv_run (sched : list action) :
  trace_inv E op c pl (run E op c pl sched (init E op ans)).
Proof.
  apply (run_invariant (trace_inv E op c pl)).
  - intros a s. apply trace_inv_step.
  - split; simpl; auto.
Qed.

Lemma posts_sound (tr : list event) (srv : string) (body : bytes) :
  In (srv, body) (posts tr) -> In (EvPost srv body) tr.
Proof.
  induction tr as [|ev tr IH]; simpl; [tauto|].
  destruct ev; simpl; intros H; auto.
  destruct H as [H|H]; [left; congruence|auto].
Qed.

(** Whatever the schedule, every body handed to the transport is the
    marshalled payload, sent to the configured server. *)
Lemma sent_is_marshalled (sched : list action) (srv : string) (body : bytes) :
  In (srv, body) (posts (s_trace (run E op c pl sched (init E op ans)))) ->
  srv = server c /\ json_Marshal_req E op pl = Ok body.
Proof.
  intros H. apply posts_sound in H.
  destruct (trace_inv_run sched) as [_ Htr].
  rewrite Forall_forall in Htr. apply (Htr _ H).
Qed.

(** Whatever the schedule, the goroutine subscribes on the key of the
    payload. *)
Lemma subscribed_on_request_key (sched : list action) (key : string) :
  In (EvSubscribe key) (s_trace (run E op c pl sched (init E op ans))) ->
  key = getAsyncKey (BasePayload.MessageType (req_base pl))
                    (BasePayload.TransactionID (req_base pl)).
Proof.
  intros H. destruct (trace_inv_run sched) as [_ Htr].
  rewrite Forall_forall in Htr. apply (Htr _ H).
Qed.

(** *** The send fails

    When the body marshals and the send fails, the calling thread walks
    [MMarshal], [MGo], [MPost] and returns the wrapped transport error at its
    third move, whatever the goroutine, the peer and the clock do. *)
Section SendFails.

Variable b : bytes.
Variable e : error.
Hypothesis Hm : json_Marshal_req E op pl = Ok b.
Hypothesis Hp : http_Post E (httpClient c) (server c) b = Err e.

Let path : list main_pc := [MMarshal; MGo b; MPost b].
Let final : main_pc := MReturned (Some (errors_Wrap e "http post error")).

Lemma send_fails_step (a : action) (s : St) (n : nat) :
  s_main s = pc_after path final n -> s_ans s = ans ->
  s_main (step E op c pl a s) = pc_after path final (n + main_moves [a])
  /\ s_ans (step E op c pl a s) = ans.
Proof.
  intros Hpc Hans.
  destruct (main_moves [a]) eqn:Hmv.
  - rewrite Nat.add_0_r.
    destruct (other_moves_frame a s Hmv) as [-> ->]. auto.
  - destruct a; simpl in Hmv; try discriminate.
    injection Hmv as <-. rewrite Nat.add_1_r.
    destruct s as [m g rc ec an sub q clk tr]; simpl in *. subst an.
    destruct n as [|[|[|n]]]; simpl in Hpc; subst m;
      unfold step, main_step; simpl.
    + rewrite Hm. auto.
    + destruct (Client.IsAsync c); auto.
    + rewrite Hp. auto.
    + destruct n; auto.
Qed.

Lemma send_fails_run (sched : list action) (s : St) (n : nat) :
  s_main s = pc_after path final n -> s_ans s = ans ->
  s_main (run E op c pl sched s) = pc_after path final (n + main_moves sched)
  /\ s_ans (run E op c pl sched s) = ans.
Proof.
  revert s n. induction sched as [|a rest IH]; intros s n Hpc Hans.
  - simpl. rewrite Nat.add_0_r. auto.
  - destruct (send_fails_step a s n Hpc Hans) as [Hpc' Hans'].
    destruct (IH _ _ Hpc' Hans') as [H1 H2].
    split; [|exact H2].
    cbn [run]. rewrite H1. f_equal.
    change (a :: rest) with (([a] ++ rest)%list).
    rewrite main_moves_app. lia.
Qed.

(** [request] returns the transport failure as soon as the calling thread
    has made three moves, and has not returned before. *)
Lemma send_fails_request (sched : list action) :
  request E op c pl ans sched =
  if Nat.leb 3 (main_moves sched)
  then Some (ans, Some (errors_Wrap e "http post error"))
  else None.
Proof.
  unfold request.
  destruct (send_fails_run sched (init E op ans) 0 eq_refl eq_refl)
    as [Hpc Hans].
  rewrite Hpc, Hans. simpl.
  destruct (main_moves sched) as [|[|[|n]]]; simpl; auto.
  destruct n; auto.
Qed.

End SendFails.

(** *** Sync mode

    Without a goroutine the calling thread is alone: it walks [MMarshal],
    [MGo], [MPost], [MRead], [MSelect] and returns at its fifth move. *)
Section SyncMode.

Variable b : bytes.
Variable resp : http_Response.
Hypothesis Hsync : redisClient c = None.
Hypothesis Hm : json_Marshal_req E op pl = Ok b.
Hypothesis Hp : http_Post E (httpClient c) (server c) b = Ok resp.

Let path : list main_pc := [MMarshal; MGo b; MPost b; MRead resp; MSelect].
Let final : main_pc := MReturned (snd (decode_body E op ans (Body resp))).

(** The state of the calling thread after [n] of its moves. *)
Let sync_phase (n : nat) (s : St) : Prop :=
  s_go s = None
  /\ s_main s = pc_after path final n
  /\ (n <= 3 -> s_responseChan s = None /\ s_errorChan s = None)
  /\ (n = 4 ->
      match Body resp with
      | Ok bb => s_responseChan s = Some bb /\ s_errorChan s = None
      | Err err => s_responseChan s = None /\ s_errorChan s = Some err
      end)
  /\ s_ans s = (if Nat.leb 5 n then fst (decode_body E op ans (Body resp))
                else ans)
  /\ posts (s_trace s) = (if Nat.leb 3 n then [(server c, b)] else []).

Lemma sync_idle_move (a : action) (s : St) :
  main_moves [a] = 0 -> s_go s = None ->
  s_go (step E op c pl a s) = None
  /\ s_main (step E op c pl a s) = s_main s
  /\ s_responseChan (step E op c pl a s) = s_responseChan s
  /\ s_errorChan (step E op c pl a s) = s_errorChan s
  /\ s_ans (step E op c pl a s) = s_ans s
  /\ posts (s_trace (step E op c pl a s)) = posts (s_trace s).
Proof.
  destruct s, a; simpl; intros H Hg; try discriminate; subst;
    step_cases; rewrite ?posts_app; simpl; rewrite ?app_nil_r; auto 7.
Qed.

Lemma sync_step (a : action) (s : St) (n : nat) :
  sync_phase n s -> sync_phase (n + main_moves [a]) (step E op c pl a s).
Proof.
  intros (Hg & Hpc & Hlo & Hmid & Hans & Hposts).
  destruct (main_moves [a]) eqn:Hmv.
  - rewrite Nat.add_0_r. unfold sync_phase.
    destruct (sync_idle_move a s Hmv Hg) as (-> & -> & -> & -> & -> & ->).
    repeat split; auto; try apply Hlo; auto.
  - destruct a; simpl in Hmv; try discriminate.
    injection Hmv as <-. rewrite Nat.add_1_r.
    destruct s as [m g rc ec an sub q clk tr]; simpl in *. subst g.
    unfold sync_phase, step, main_step, Client.IsAsync; simpl.
    destruct n as [|[|[|[|[|n]]]]]; simpl in Hpc; subst m; simpl in *.
    + rewrite Hm. simpl. repeat split; auto; try apply Hlo; try lia.
    + rewrite Hsync. simpl. repeat split; auto; try apply Hlo; try lia.
    + rewrite Hp. simpl. rewrite posts_app, Hposts. simpl.
      repeat split; auto; try apply Hlo; try lia.
    + rewrite Hsync. simpl.
      destruct Hlo as [-> ->]; [lia|].
      destruct (Body resp); simpl; repeat split; auto; try lia.
    + specialize (Hmid eq_refl). unfold final, decode_body.
      destruct (Body resp) as [bb|err]; destruct Hmid as [-> ->]; simpl.
      * subst an. destruct (json_Unmarshal E op bb ans) as [a' [ue|]];
          simpl; rewrite !posts_app, Hposts; simpl;
          repeat split; auto; try lia.
      * rewrite !posts_app, Hposts; simpl. repeat split; auto; try lia.
    + destruct n; simpl; repeat split; auto; try lia.
Qed.

Lemma sync_run (sched : list action) (s : St) (n : nat) :
  sync_phase n s -> sync_phase (n + main_moves sched) (run E op c pl sched s).
Proof.
  revert s n. induction sched as [|a rest IH]; intros s n H.
  - simpl. now rewrite Nat.add_0_r.
  - apply sync_step with (a := a) in H. apply IH in H.
    change (a :: rest) with (([a] ++ rest)%list).
    rewrite main_moves_app, Nat.add_assoc. exact H.
Qed.

(** In sync mode [request] returns what the response body decodes to, at the
    fifth move of the calling thread and not before. *)
Lemma sync_request (sched : list action) :
  request E op c pl ans sched =
  if Nat.leb 5 (main_moves sched)
  then Some (decode_body E op ans (Body resp))
  else None.
Proof.
  unfold request.
  assert (H0 : sync_phase 0 (init E op ans)).
  { unfold sync_phase; simpl. repeat split; auto; lia. }
  apply sync_run with (sched := sched) in H0. simpl in H0.
  destruct H0 as (_ & Hpc & _ & _ & Hans & _).
  rewrite Hpc, Hans.
  destruct (main_moves sched) as [|[|[|[|[|n]]]]]; simpl; auto.
  destruct (decode_body E op ans (Body resp)); simpl.
  destruct n; auto.
Qed.

(** The request is sent once, at the third move. *)
Lemma sync_posts_once (sched : list action) :
  3 <= main_moves sched ->
  posts (s_trace (run E op c pl sched (init E op ans))) = [(server c, b)].
Proof.
  intros Hmv.
  assert (H0 : sync_phase 0 (init E op ans)).
  { unfold sync_phase; simpl. repeat split; auto; lia. }
  apply sync_run with (sched := sched) in H0. simpl in H0.
  destruct H0 as (_ & _ & _ & _ & _ & Hposts).
  rewrite Hposts. apply Nat.leb_le in Hmv. now rewrite Hmv.
Qed.

End SyncMode.

(** *** Async mode *)
Section AsyncMode.

Variable rc : redis_Client.
Hypothesis Hasync : redisClient c = Some rc.

Lemma delivered_snoc (tr : list event) (ev : event) :
  delivered (tr ++ [ev]) = delivered tr || is_delivery ev.
Proof.
  unfold delivered. rewrite existsb_app. simpl. now rewrite orb_false_r.
Qed.

Ltac inv_finish :=
  repeat split; intros;
  rewrite ?delivered_snoc, ?orb_false_r, ?orb_true_r in *; simpl in *;
  try discriminate;
  repeat match goal with
         | H : ?P -> _, H' : ?P |- _ => specialize (H H')
         | H : _ /\ _ |- _ => destruct H
         | H : _ \/ _ |- _ => destruct H
         | H : exists _, _ |- _ => destruct H
         end;
  subst; try discriminate; try congruence; eauto 6.

Lemma async_inv_init : async_inv E op c pl (init E op ans).
Proof.
  unfold async_inv, main_inv, go_inv, silent_inv; simpl. inv_finish.
Qed.

Lemma returned_by_mono (s s' : St) (err : option error) :
  returned_by E op c pl s err ->
  (s_go s = Some GDone -> s_go s' = Some GDone) ->
  (delivered (s_trace s') = false -> delivered (s_trace s) = false) ->
  returned_by E op c pl s' err.
Proof.
  intros [H|[H|(b & resp & Hm & Hp & Hg & Hd)]] Hgo Htr.
  - left. exact H.
  - right. left. exact H.
  - right. right. exists b, resp. repeat split; auto.
Qed.

Ltac keep_returned :=
  match goal with
  | H : returned_by _ _ _ _ _ ?err |- returned_by _ _ _ _ _ ?err =>
      apply (returned_by_mono _ _ _ H); simpl;
      rewrite ?delivered_snoc; intros;
      try congruence;
      try (apply orb_false_iff in H; tauto)
  end.

(** A move of another thread keeps what the calling thread has
    established. *)
Lemma main_inv_frame (s s' : St) :
  main_inv E op c pl s ->
  s_main s' = s_main s ->
  (s_go s = None -> s_go s' = None) ->
  (s_go s = Some GDone -> s_go s' = Some GDone) ->
  (delivered (s_trace s') = false -> delivered (s_trace s) = false) ->
  main_inv E op c pl s'.
Proof.
  unfold main_inv. intros H Hm Hnone Hdone Htr. rewrite Hm.
  destruct (s_main s); try tauto.
  eapply returned_by_mono; eauto.
Qed.

Lemma go_step_frame (tie : bool) (s : St) :
  s_main (go_step E op c pl tie s) = s_main s
  /\ (s_go s = None -> s_go (go_step E op c pl tie s) = None)
  /\ (s_go s = Some GDone -> s_go (go_step E op c pl tie s) = Some GDone)
  /\ delivered (s_trace (go_step E op c pl tie s)) = delivered (s_trace s).
Proof.
  destruct s as [m g rch ech an sub q clk tr].
  destruct g as [[| |dl|r|[bb|e]|]|]; open_step; rewrite ?Hasync; simpl;
    repeat split_match; rewrite ?delivered_snoc, ?orb_false_r;
    repeat split; intros; congruence.
Qed.

Lemma publish_step_frame (key payload : string) (s : St) :
  s_main (publish_step E op pl key payload s) = s_main s
  /\ s_go (publish_step E op pl key payload s) = s_go s
  /\ (delivered (s_trace (publish_step E op pl key payload s)) = false ->
      delivered (s_trace s) = false
      /\ s_queue (publish_step E op pl key payload s) = s_queue s).
Proof.
  destruct s as [m g rch ech an sub q clk tr]. open_step.
  rewrite delivered_snoc. simpl.
  destruct (sub && String.eqb key (request_key E op pl));
    rewrite ?orb_true_r, ?orb_false_r; repeat split; auto; discriminate.
Qed.

Lemma async_inv_step (a : action) (s : St) :
  async_inv E op c pl s -> async_inv E op c pl (step E op c pl a s).
Proof.
  intros (Hmain & Hgo & Hsil).
  destruct a as [tie|tie|key payload|d].
  - (* the calling thread *)
    destruct s as [m g rch ech an sub q clk tr].
    remember (step E op c pl (Main tie)
                   (mkState m g rch ech an sub q clk tr)) as s' eqn:Hs'.
    unfold async_inv, main_inv, go_inv, silent_inv in *; simpl in *.
    destruct m as [|b|b|resp| |err].
    + step_in Hs'; subst s'; simpl; subst g; inv_finish.
      left. eauto.
    + destruct Hmain as [-> Hm].
      step_in Hs'; subst s'; simpl. inv_finish.
    + step_in Hs'; subst s'; simpl; inv_finish.
      right. left. eauto.
    + step_in Hs'; subst s'; simpl. inv_finish.
    + destruct Hmain as (b & resp & Hm & Hp).
      assert (Hdone : ech <> None \/ rch <> None -> g = Some GDone).
      { destruct g as [[| | | | |]|]; intuition congruence. }
      step_in Hs'; subst s'; simpl;
        try (assert (g = Some GDone)
              by (apply Hdone; (left; discriminate) || (right; discriminate));
             subst g);
        unfold returned_by; simpl;
        rewrite ?delivered_snoc, ?orb_false_r;
        (split; [|split]); auto.
      all: try (right; right; exists b, resp; repeat split; auto).
      all: try (intros Hd; destruct (Hsil Hd) as (Hq & Hr & He & Hres);
                try discriminate; repeat split; auto;
                try (intros; discriminate); try (f_equal; auto)).
      all: eauto.
    + step_in Hs'; subst s'; simpl. auto.
  - (* the goroutine *)
    destruct (go_step_frame tie s) as (Fm & Fnone & Fdone & Ftr).
    split; [|].
    { apply (main_inv_frame s); auto. simpl. congruence. }
    clear Hmain Fm Fnone Fdone Ftr.
    unfold go_inv, silent_inv in *.
    destruct s as [m g rch ech an sub q clk tr]; simpl in *.
    destruct g as [[| |dl|r|[bb|e]|]|]; open_step; rewrite ?Hasync; simpl;
      repeat split_match; rewrite ?delivered_snoc, ?orb_false_r; simpl.
    all: split; [tauto|].
    all: intros Hd; specialize (Hsil Hd).
    all: try solve [intuition congruence].
    all: destruct Hsil as (Hq & Hr & He & Hres);
      match goal with
      | Hres : forall r, Some ?pc = _ \/ Some ?pc = _ -> _ |- _ =>
          first [ pose proof (Hres _ (or_introl eq_refl)) as Hx
                | pose proof (Hres _ (or_intror eq_refl)) as Hx ]
      end;
      try discriminate; try (injection Hx as ->); subst;
      repeat split; auto; intros; intuition congruence.
  - (* the peer publishes *)
    destruct (publish_step_frame key payload s) as (Fm & Fg & Ftr).
    split; [|].
    { apply (main_inv_frame s); auto; try (simpl; congruence).
      intros H. apply Ftr, H. }
    clear Hmain Fm Fg Ftr. unfold go_inv, silent_inv in *.
    destruct s as [m g rch ech an sub q clk tr]; open_step.
    rewrite delivered_snoc; simpl.
    destruct sub; simpl in *.
    + destruct (String.eqb key (request_key E op pl)); simpl;
        rewrite ?orb_true_r, ?orb_false_r;
        (split; [|first [exact Hsil | intros; discriminate]]);
        destruct g as [[| | | | |]|]; intuition congruence.
    + rewrite orb_false_r. split; [exact Hgo | exact Hsil].
  - (* time passes *)
    unfold async_inv, main_inv, go_inv, silent_inv in *.
    destruct s as [m g rch ech an sub q clk tr]; simpl in *.
    open_step. unfold returned_by in *; simpl in *.
    split; [destruct m; auto|]. split; [exact Hgo | exact Hsil].
Qed.

Lemma go_before_send_snoc (st : bool) (tr : list event) (ev : event) :
  go_before_send st (tr ++ [ev])
  = go_before_send st tr
    && match ev with
       | EvPost _ _ => st || go_started tr
       | _ => true
       end.
Proof.
  revert st. induction tr as [|x tr IH]; intros st; simpl.
  - destruct ev; simpl; rewrite ?andb_true_r, ?orb_false_r; auto.
  - destruct x; simpl; rewrite IH; auto.
    + destruct ev; auto. simpl. now rewrite orb_true_r.
    + apply andb_assoc.
Qed.

Lemma go_started_snoc (tr : list event) (ev : event) :
  go_started (tr ++ [ev]) = go_started tr || is_go ev.
Proof.
  unfold go_started. rewrite existsb_app. simpl. now rewrite orb_false_r.
Qed.

(** What the code does guarantee in async mode: the [go] statement comes
    before the send. *)
Lemma go_statement_precedes_send (sched : list action) :
  go_before_send false (s_trace (run E op c pl sched (init E op ans))) = true.
Proof.
  cut (go_before_send false
         (s_trace (run E op c pl sched (init E op ans))) = true
       /\ match s_main (run E op c pl sched (init E op ans)) with
          | MPost _ =>
              go_started
                (s_trace (run E op c pl sched (init E op ans))) = true
          | _ => True
          end); [tauto|].
  apply (run_invariant
           (fun s => go_before_send false (s_trace s) = true
                     /\ match s_main s with
                        | MPost _ => go_started (s_trace s) = true
                        | _ => True
                        end)); [|simpl; auto].
  intros a s [Hgbs Hpc].
  destruct s as [m g rch ech an sub q clk tr].
  remember (step E op c pl a (mkState m g rch ech an sub q clk tr)) as s'
    eqn:Hs'.
  simpl in *.
  destruct a as [tie|tie|key payload|d];
    [destruct m|destruct g as [[| | | |[|]|]|]| |];
    step_in Hs'; subst s'; simpl;
    rewrite ?go_before_send_snoc, ?go_started_snoc, ?Hgbs, ?Hpc; simpl;
    rewrite ?orb_true_r, ?orb_false_r; auto;
    split; auto; destruct m; auto.
Qed.

Lemma async_inv_run (sched : list action) :
  async_inv E op c pl (run E op c pl sched (init E op ans)).
Proof.
  apply (run_invariant (async_inv E op c pl)).
  - intros a s. apply async_inv_step.
  - apply async_inv_init.
Qed.

(** When the send has succeeded, [request] can only have returned by taking
    the goroutine's result from a channel. *)
Lemma async_returned_through_select (b : bytes) (resp : http_Response)
  (sched : list action) (err : option error) :
  json_Marshal_req E op pl = Ok b ->
  http_Post E (httpClient c) (server c) b = Ok resp ->
  s_main (run E op c pl sched (init E op ans)) = MReturned err ->
  s_go (run E op c pl sched (init E op ans)) = Some GDone
  /\ s_subscribed (run E op c pl sched (init E op ans)) = false
  /\ (delivered (s_trace (run E op c pl sched (init E op ans))) = false ->
      err = Some ErrAsyncTimeout).
Proof.
  intros Hm Hp Hret.
  destruct (async_inv_run sched) as (Hmain & Hgo & _).
  unfold main_inv in Hmain. rewrite Hret in Hmain.
  destruct Hmain as [(e & He & _)|[(b' & e & Hb & He & _)|
                     (b' & resp' & _ & _ & Hdone & Hsil)]].
  - congruence.
  - rewrite Hm in Hb. injection Hb as <-. congruence.
  - unfold go_inv in Hgo. rewrite Hdone in Hgo. auto.
Qed.

(** One move of a run, computed on its own. *)
Lemma run_cons (a : action) (rest : list action) (s : St) :
  run E op c pl (a :: rest) s = run E op c pl rest (step E op c pl a s).
Proof. reflexivity. Qed.

End AsyncMode.

End Runs.

(** * The claims *)

Lemma call_unfold (E : Env) (op : Operation) (c : client)
  (pl : ReqPayload (ReqBody E op)) (sched : list action) :
  call E op c pl sched
  = check_result (request E op c (stamp c (tag_of op) pl)
                          (zero_ans E op) sched).
Proof. destruct op; reflexivity. Qed.

Lemma handle_unfold (E : Env) (op : Operation) (c : client)
  (pl : AnsPayload (AnsBody E op)) :
  handle E op c pl = writeAsync E op c (tag_of op) pl.
Proof. destruct op; reflexivity. Qed.

Lemma is_empty_true (s : string) : is_empty s = true <-> s = "".
Proof. unfold is_empty. apply String.eqb_eq. Qed.

(** With a TLS setting, [NewClient] can only return the client of its last
    statement. *)
Lemma NewClient_tls (E : Env) (config : ClientConfig) (cl : client) :
  CACert config <> "" \/ TLSCert config <> "" \/ TLSKey config <> "" ->
  NewClient E config = Ok cl ->
  exists tlsConfig,
    cl = mkClient (Server config) (http_ClientWithTransport tlsConfig)
                  "" "" "" None 0.
Proof.
  intros Htls. unfold NewClient.
  assert (Hcond : is_empty (CACert config) && is_empty (TLSCert config)
                  && is_empty (TLSKey config) = false).
  { apply not_true_is_false. intros H.
    apply andb_prop in H. destruct H as [H H3].
    apply andb_prop in H. destruct H as [H1 H2].
    apply is_empty_true in H1, H2, H3. tauto. }
  rewrite Hcond. unfold bind.
  repeat match goal with
         | |- context [match ?x with _ => _ end] =>
             lazymatch x with
             | context [match _ with _ => _ end] => fail
             | _ => destruct x
             end
         end;
    intros H; try discriminate; injection H as <-; eauto.
Qed.

(** C10.  With a CA certificate, a client certificate or a key configured,
    a client that [NewClient] returns has [senderID], [receiverID],
    [protocolVersion], [redisClient] and [asyncTimeout] at their zero values:
    it is not async whatever [config.RedisClient] is, [GetSenderID] and
    [GetReceiverID] give the empty string, and every request it sends is the
    encoding of a payload with empty sender, receiver and protocol
    version. *)
Theorem C10_tls_client_has_zero_identity
  (E : Env) (config : ClientConfig) (cl : client) :
  CACert config <> "" \/ TLSCert config <> "" \/ TLSKey config <> "" ->
  NewClient E config = Ok cl ->
  senderID cl = "" /\ receiverID cl = "" /\ protocolVersion cl = ""
  /\ redisClient cl = None /\ asyncTimeout cl = 0%Z
  /\ Client.IsAsync cl = false
  /\ Client.GetSenderID cl = "" /\ Client.GetReceiverID cl = ""
  /\ forall (op : Operation) (pl : ReqPayload (ReqBody E op))
            (sched : list action) (srv : string) (body : bytes),
       In (srv, body) (posts (call_trace E op cl pl sched)) ->
       exists sent : ReqPayload (ReqBody E op),
         json_Marshal_req E op sent = Ok body
         /\ BasePayload.SenderID (req_base sent) = ""
         /\ BasePayload.ReceiverID (req_base sent) = ""
         /\ BasePayload.ProtocolVersion (req_base sent) = ""
         /\ BasePayload.MessageType (req_base sent) = tag_of op
         /\ BasePayload.TransactionID (req_base sent)
            = BasePayload.TransactionID (req_base pl)
         /\ req_body sent = req_body pl.
Proof.
  intros Htls Hnew.
  destruct (NewClient_tls E config cl Htls Hnew) as [tlsConfig ->].
  repeat split.
  intros op pl sched srv body Hin.
  apply sent_is_marshalled in Hin. destruct Hin as [_ Hm].
  eexists. split; [exact Hm|]. simpl. repeat split.
Qed.

Lemma C10_witness :
  NewClient env_ack cfg_tls = Ok cl_tls
  /\ RedisClient cfg_tls = Some broker
  /\ SenderID cfg_tls = "010203"
  /\ Client.IsAsync cl_tls = false
  /\ Client.GetSenderID cl_tls = "".
Proof.
  assert (Hnew : NewClient env_ack cfg_tls = Ok cl_tls)
    by (vm_compute; reflexivity).
  assert (Htls : CACert cfg_tls <> "" \/ TLSCert cfg_tls <> ""
                 \/ TLSKey cfg_tls <> "")
    by (right; left; simpl; discriminate).
  destruct (C10_tls_client_has_zero_identity env_ack cfg_tls cl_tls Htls Hnew)
    as (_ & _ & _ & _ & _ & H1 & H2 & _).
  repeat split; assumption.
Defined.

(** C1, at a configuration with a client certificate: the client that
    [NewClient] returns sends a Start request stamped with an empty sender,
    receiver and protocol version, not with the configured ones; without the
    TLS setting the same request is stamped as configured. *)
Theorem C1_tls_client_drops_configured_identity :
  (exists cl,
      NewClient env_ack cfg_tls = Ok cl
      /\ SenderID cfg_tls = "010203" /\ ReceiverID cfg_tls = "040506"
      /\ req_base (stamp cl PRStartReq start7)
         = BasePayload.mk "" "" "" 7%N PRStartReq
      /\ posts (call_trace env_ack OpPRStart cl start7 sched_sync)
         = [("https://peer/", bytes_of_string "|||7|PRStartReq")])
  /\ (exists cl,
         NewClient env_ack cfg_sync = Ok cl
         /\ req_base (stamp cl PRStartReq start7)
            = BasePayload.mk "1.0" "010203" "040506" 7%N PRStartReq
         /\ posts (call_trace env_ack OpPRStart cl start7 sched_sync)
            = [("http://peer/",
                bytes_of_string "1.0|010203|040506|7|PRStartReq")]).
Proof.
  split; eexists; repeat split; reflexivity.
Qed.

(** The part of C1 that holds for every client: each request an operation
    sends is the encoding of the payload stamped with the fields of the
    client and the tag of the operation, and goes to its server. *)
Lemma sent_is_stamped (E : Env) (op : Operation) (c : client)
  (pl : ReqPayload (ReqBody E op)) (sched : list action)
  (srv : string) (body : bytes) :
  In (srv, body) (posts (call_trace E op c pl sched)) ->
  srv = server c
  /\ json_Marshal_req E op
       (mkReqPayload
          (BasePayload.mk (protocolVersion c) (senderID c) (receiverID c)
                          (BasePayload.TransactionID (req_base pl))
                          (tag_of op))
          (req_body pl))
     = Ok body.
Proof. intros H. apply sent_is_marshalled in H. exact H. Qed.

(** C6.  The key is the five fields joined by colons, with the namespace
    [lora] and the component [backend]; two keys are equal only if message
    type and transaction id are; the goroutine of [request] subscribes on
    the key of the stamped message type and the transaction id of the
    payload, and [writeAsync] publishes on the key of the same two. *)
Theorem C6_correlation_key :
  (forall typ id,
      getAsyncKey typ id
      = "lora" ++ ":" ++ "backend" ++ ":" ++ "async" ++ ":" ++ typ ++ ":"
        ++ fmt_d id
      /\ colon_free (fmt_d id) = true)
  /\ (forall t1 i1 t2 i2,
         getAsyncKey t1 i1 = getAsyncKey t2 i2 -> t1 = t2 /\ i1 = i2)
  /\ (forall E op c pl sched key,
         In (EvSubscribe key) (call_trace E op c pl sched) ->
         key = getAsyncKey (tag_of op)
                           (BasePayload.TransactionID (req_base pl)))
  /\ (forall E op c (a : AnsPayload (AnsBody E op)) key body out,
         handle E op c a = (Some (key, body), out) ->
         key = getAsyncKey (tag_of op)
                           (BasePayload.TransactionID (ans_base a))).
Proof.
  split; [|split; [|split]].
  - intros typ id. split; [reflexivity|apply fmt_d_colon_free].
  - intros t1 i1 t2 i2. apply getAsyncKey_inj.
  - intros E op c pl sched key H.
    apply subscribed_on_request_key in H. exact H.
  - intros E op c a key body out. rewrite handle_unfold. unfold writeAsync.
    destruct (json_Marshal_ans E op a); [|discriminate].
    destruct (redisClient c); [|discriminate].
    destruct (redis_Publish E r _ a0); intros H; injection H as <- _ _;
      reflexivity.
Qed.

Lemma C6_witness :
  (PRStartReq = PRStartReq /\ 7%N = 7%N)
  /\ fst (handle env_ack OpPRStart cl_async
            (mkAnsPayload (BasePayload.mk "" "" "" 7%N "")
                          (Result.mk "Success" "") tt))
     = Some ("lora:backend:async:PRStartReq:7", bytes_of_string "Success|")
  /\ In (EvSubscribe "lora:backend:async:PRStartReq:7")
        (call_trace env_ack OpPRStart cl_async start7
                    (sched_listen_first "Success|")).
Proof.
  destruct C6_correlation_key as (_ & Hinj & _ & _).
  split; [apply (Hinj PRStartReq 7%N PRStartReq 7%N); reflexivity|].
  split; [reflexivity|]. vm_compute. tauto.
Defined.

(** C9, as the code has it: for a Start request with transaction id 7 the
    key on which [request] subscribes is
    [lora:backend:async:PRStartReq:7]. *)
Theorem C9_start_7_key (E : Env) (c : client)
  (pl : ReqPayload (ReqBody E OpPRStart)) :
  BasePayload.TransactionID (req_base pl) = 7%N ->
  request_key E OpPRStart (stamp c PRStartReq pl)
  = "lora:backend:async:PRStartReq:7"
  /\ forall sched key,
       In (EvSubscribe key) (call_trace E OpPRStart c pl sched) ->
       key = "lora:backend:async:PRStartReq:7".
Proof.
  intros H7. unfold request_key. simpl. rewrite H7. split; [reflexivity|].
  intros sched key Hin. apply subscribed_on_request_key in Hin.
  simpl in Hin. rewrite H7 in Hin. exact Hin.
Qed.

Lemma C9_witness :
  request_key env_ack OpPRStart (stamp cl_async PRStartReq start7)
  = "lora:backend:async:PRStartReq:7".
Proof. apply (C9_start_7_key env_ack cl_async start7 eq_refl). Defined.

(** C9 as stated fails: the key of a Start request with transaction id 7
    is not [ns:backend:async:PRStartReq:7]. *)
Lemma C9_counterexample :
  request_key env_ack OpPRStart (stamp cl_async PRStartReq start7)
  <> "ns:backend:async:PRStartReq:7"
  /\ getAsyncKey PRStartReq 7%N <> "ns:backend:async:PRStartReq:7".
Proof. split; discriminate. Qed.

(** C3.  When [request] hands back a decoded answer and no error, the
    operation returns the answer with no error if its result code is
    [Success], and otherwise the answer with the error
    ["response error, code: <code>, description: <description>"], which is
    neither a wrapped (marshal, transport, decode, publish) error nor the
    async timeout nor a library error. *)
Theorem C3_result_code_decides
  (E : Env) (op : Operation) (c : client) (pl : ReqPayload (ReqBody E op))
  (sched : list action) (ans : AnsPayload (AnsBody E op)) :
  request E op c (stamp c (tag_of op) pl) (zero_ans E op) sched
  = Some (ans, None) ->
  (Result.ResultCode (ans_result ans) <> Success ->
   call E op c pl sched
   = Some (ans,
           Some (fmt_Errorf
                   ("response error, code: "
                    ++ Result.ResultCode (ans_result ans)
                    ++ ", description: "
                    ++ Result.Description (ans_result ans))))
   /\ (forall e msg, response_error (ans_result ans) <> errors_Wrap e msg)
   /\ response_error (ans_result ans) <> ErrAsyncTimeout
   /\ (forall msg, response_error (ans_result ans) <> lib_error msg))
  /\ (Result.ResultCode (ans_result ans) = Success ->
      call E op c pl sched = Some (ans, None)).
Proof.
  intros Hreq. rewrite call_unfold, Hreq. unfold check_result.
  destruct (String.eqb_spec (Result.ResultCode (ans_result ans)) Success)
    as [Heq|Hne]; simpl.
  - split; [intros H; contradiction|reflexivity].
  - split; [|intros H; contradiction].
    intros _. repeat split; intros; discriminate.
Qed.

Lemma C3_witness :
  call (env_reply 200 "500|server error") OpPRStart cl_sync start7 sched_sync
  = Some (mkAnsPayload (BasePayload.mk "" "" "" 0%N "")
                       (Result.mk "500" "server error") tt,
          Some (fmt_Errorf
                  "response error, code: 500, description: server error"))
  /\ call (env_reply 200 "Success|") OpPRStart cl_sync start7 sched_sync
     = Some (mkAnsPayload (BasePayload.mk "" "" "" 0%N "")
                          (Result.mk "Success" "") tt, None).
Proof.
  split.
  - apply (C3_result_code_decides (env_reply 200 "500|server error")
             OpPRStart cl_sync start7 sched_sync
             (mkAnsPayload (BasePayload.mk "" "" "" 0%N "")
                           (Result.mk "500" "server error") tt)).
    + vm_compute. reflexivity.
    + simpl. discriminate.
  - apply (C3_result_code_decides (env_reply 200 "Success|")
             OpPRStart cl_sync start7 sched_sync
             (mkAnsPayload (BasePayload.mk "" "" "" 0%N "")
                           (Result.mk "Success" "") tt)).
    + vm_compute. reflexivity.
    + reflexivity.
Defined.

(** C8.  In sync mode, once the calling thread has made its five moves,
    [request] returns what the response body decodes to, whatever the status
    code of the response; if the send fails it returns the wrapped transport
    error and leaves [*ans] as it was. *)
Theorem C8_sync_body_is_the_answer
  (E : Env) (op : Operation) (c : client) (pl : ReqPayload (ReqBody E op))
  (ans : AnsPayload (AnsBody E op)) (b : bytes) (sched : list action) :
  Client.IsAsync c = false ->
  json_Marshal_req E op pl = Ok b ->
  (forall status bb,
      http_Post E (httpClient c) (server c) b
      = Ok (mkResponse status (Ok bb)) ->
      5 <= main_moves sched ->
      request E op c pl ans sched
      = Some (fst (json_Unmarshal E op bb ans),
              wrap_opt (snd (json_Unmarshal E op bb ans))
                       "unmarshal response error")
      /\ posts (s_trace (run E op c pl sched (init E op ans)))
         = [(server c, b)])
  /\ (forall e,
         http_Post E (httpClient c) (server c) b = Err e ->
         3 <= main_moves sched ->
         request E op c pl ans sched
         = Some (ans, Some (errors_Wrap e "http post error"))).
Proof.
  intros Hsync Hm.
  assert (Hnil : redisClient c = None).
  { unfold Client.IsAsync in Hsync. destruct (redisClient c); congruence. }
  split.
  - intros status bb Hp Hmv. split.
    + rewrite (sync_request E op c pl ans b _ Hnil Hm Hp sched).
      apply Nat.leb_le in Hmv. rewrite Hmv. simpl.
      destruct (json_Unmarshal E op bb ans); reflexivity.
    + apply (sync_posts_once E op c pl ans b _ Hnil Hm Hp sched). lia.
  - intros e Hp Hmv.
    rewrite (send_fails_request E op c pl ans b e Hm Hp sched).
    apply Nat.leb_le in Hmv. rewrite Hmv. reflexivity.
Qed.

Lemma C8_witness :
  request (env_reply 500 "Success|") OpPRStart cl_sync
          (stamp cl_sync PRStartReq start7)
          (zero_ans (env_reply 500 "Success|") OpPRStart) sched_sync
  = Some (mkAnsPayload (BasePayload.mk "" "" "" 0%N "")
                       (Result.mk "Success" "") tt, None)
  /\ request env_down OpPRStart cl_sync (stamp cl_sync PRStartReq start7)
             (zero_ans env_down OpPRStart) sched_sync
     = Some (zero_ans env_down OpPRStart,
             Some (errors_Wrap (lib_error "connection refused")
                               "http post error")).
Proof.
  split.
  - destruct (C8_sync_body_is_the_answer (env_reply 500 "Success|")
                OpPRStart cl_sync (stamp cl_sync PRStartReq start7)
                (zero_ans (env_reply 500 "Success|") OpPRStart)
                (bytes_of_string "1.0|010203|040506|7|PRStartReq")
                sched_sync eq_refl eq_refl) as [Hok _].
    assert (Hmv : 5 <= main_moves sched_sync) by (simpl; lia).
    destruct (Hok 500%Z (bytes_of_string "Success|") eq_refl Hmv)
      as [Hreq _].
    exact Hreq.
  - destruct (C8_sync_body_is_the_answer env_down OpPRStart cl_sync
                (stamp cl_sync PRStartReq start7)
                (zero_ans env_down OpPRStart)
                (bytes_of_string "1.0|010203|040506|7|PRStartReq")
                sched_sync eq_refl eq_refl) as [_ Hfail].
    assert (Hmv : 3 <= main_moves sched_sync) by (simpl; lia).
    exact (Hfail (lib_error "connection refused") eq_refl Hmv).
Defined.

(** C4, as the code has it: in async mode a failed send makes [request]
    return the wrapped transport error at the third move of the calling
    thread, whatever the goroutine has received and whatever the peer
    publishes; [*ans] is left as it was. *)
Theorem C4_failed_send_returns_at_once
  (E : Env) (op : Operation) (c : client) (pl : ReqPayload (ReqBody E op))
  (ans : AnsPayload (AnsBody E op)) (b : bytes) (e : error)
  (sched : list action) :
  Client.IsAsync c = true ->
  json_Marshal_req E op pl = Ok b ->
  http_Post E (httpClient c) (server c) b = Err e ->
  (3 <= main_moves sched ->
   request E op c pl ans sched
   = Some (ans, Some (errors_Wrap e "http post error")))
  /\ (main_moves sched < 3 -> request E op c pl ans sched = None).
Proof.
  intros _ Hm Hp.
  rewrite (send_fails_request E op c pl ans b e Hm Hp sched).
  split; intros Hmv.
  - apply Nat.leb_le in Hmv. now rewrite Hmv.
  - apply Nat.leb_gt in Hmv. now rewrite Hmv.
Qed.

Lemma C4_witness :
  request env_down OpPRStart cl_async (stamp cl_async PRStartReq start7)
          (zero_ans env_down OpPRStart) (sched_post_fails "Success|")
  = Some (zero_ans env_down OpPRStart,
          Some (errors_Wrap (lib_error "connection refused")
                            "http post error")).
Proof.
  destruct (C4_failed_send_returns_at_once env_down OpPRStart cl_async
              (stamp cl_async PRStartReq start7)
              (zero_ans env_down OpPRStart)
              (bytes_of_string "1.0|010203|040506|7|PRStartReq")
              (lib_error "connection refused") (sched_post_fails "Success|")
              eq_refl eq_refl eq_refl) as [Hret _].
  apply Hret. simpl. lia.
Defined.

(** C4 as stated fails: the goroutine is subscribed, the answer is published
    and reaches the subscription before the timer fires, the send fails, and
    the caller gets the transport error, not the answer. *)
Lemma C4_counterexample :
  ~ (forall sched r,
        delivered
          (call_trace env_down OpPRStart cl_async start7 sched) = true ->
        call env_down OpPRStart cl_async start7 sched = Some r ->
        snd r = None).
Proof.
  intros H.
  specialize (H (sched_post_fails "Success|")
                (zero_ans env_down OpPRStart,
                 Some (errors_Wrap (lib_error "connection refused")
                                   "http post error"))).
  discriminate H; vm_compute; reflexivity.
Qed.

(** C7, as the code has it: in async mode, when the send has succeeded and
    [request] returns (with the answer or with the timeout), the goroutine
    has finished and the subscription has been closed. *)
Theorem C7_released_when_send_succeeded
  (E : Env) (op : Operation) (c : client) (pl : ReqPayload (ReqBody E op))
  (ans : AnsPayload (AnsBody E op)) (b : bytes) (resp : http_Response)
  (sched : list action) (err : option error) :
  Client.IsAsync c = true ->
  json_Marshal_req E op pl = Ok b ->
  http_Post E (httpClient c) (server c) b = Ok resp ->
  s_main (run E op c pl sched (init E op ans)) = MReturned err ->
  s_subscribed (run E op c pl sched (init E op ans)) = false
  /\ s_go (run E op c pl sched (init E op ans)) = Some GDone.
Proof.
  intros Hasync Hm Hp Hret.
  unfold Client.IsAsync in Hasync.
  destruct (redisClient c) as [rc|] eqn:Hrc; [|discriminate].
  destruct (async_returned_through_select E op c pl ans rc Hrc b resp sched
              err Hm Hp Hret) as (Hgo & Hsub & _).
  auto.
Qed.

Lemma C7_witness :
  s_subscribed
    (run env_ack OpPRStart cl_async (stamp cl_async PRStartReq start7)
         (sched_listen_first "Success|")
         (init env_ack OpPRStart (zero_ans env_ack OpPRStart))) = false
  /\ s_go
       (run env_ack OpPRStart cl_async (stamp cl_async PRStartReq start7)
            (sched_listen_first "Success|")
            (init env_ack OpPRStart (zero_ans env_ack OpPRStart)))
     = Some GDone.
Proof.
  apply (C7_released_when_send_succeeded env_ack OpPRStart cl_async
           (stamp cl_async PRStartReq start7) (zero_ans env_ack OpPRStart)
           (bytes_of_string "1.0|010203|040506|7|PRStartReq")
           (mkResponse 200 (Ok [])) (sched_listen_first "Success|") None
           eq_refl eq_refl eq_refl).
  vm_compute. reflexivity.
Defined.

(** C7 as stated fails on the transport-failure path: [request] has returned
    the transport error while the goroutine is still waiting in its [select]
    with the subscription registered. *)
Lemma C7_counterexample :
  ~ (forall sched err,
        s_main
          (run env_down OpPRStart cl_async (stamp cl_async PRStartReq start7)
               sched (init env_down OpPRStart (zero_ans env_down OpPRStart)))
        = MReturned err ->
        s_subscribed
          (run env_down OpPRStart cl_async (stamp cl_async PRStartReq start7)
               sched (init env_down OpPRStart (zero_ans env_down OpPRStart)))
        = false).
Proof.
  intros H.
  specialize (H (sched_post_fails "Success|")
                (Some (errors_Wrap (lib_error "connection refused")
                                   "http post error"))).
  discriminate H; vm_compute; reflexivity.
Qed.

(** C2, at a schedule the Go scheduler allows: the calling thread sends the
    request before the goroutine has subscribed; the answer published right
    after the send finds no subscription and is dropped, and [PRStartReq]
    ends with the async timeout.  With the goroutine scheduled first, the
    same answer is returned. *)
Theorem C2_send_can_precede_subscription :
  call_trace env_ack OpPRStart cl_async start7 (sched_send_first "Success|")
  = [EvGo "lora:backend:async:PRStartReq:7";
     EvPost "http://peer/"
            (bytes_of_string "1.0|010203|040506|7|PRStartReq");
     EvPublished "lora:backend:async:PRStartReq:7" "Success|" false;
     EvSubscribe "lora:backend:async:PRStartReq:7";
     EvSubClose "lora:backend:async:PRStartReq:7";
     EvBodyClose;
     EvReturn (Some ErrAsyncTimeout)]
  /\ listen_before_send false
       (call_trace env_ack OpPRStart cl_async start7
                   (sched_send_first "Success|")) = false
  /\ call env_ack OpPRStart cl_async start7 (sched_send_first "Success|")
     = Some (zero_ans env_ack OpPRStart, Some ErrAsyncTimeout)
  /\ listen_before_send false
       (call_trace env_ack OpPRStart cl_async start7
                   (sched_listen_first "Success|")) = true
  /\ call env_ack OpPRStart cl_async start7 (sched_listen_first "Success|")
     = Some (mkAnsPayload (BasePayload.mk "" "" "" 0%N "")
                          (Result.mk "Success" "") tt, None).
Proof.
  repeat split; vm_compute; reflexivity.
Qed.

(** What the code does guarantee for C2: in async mode, on every schedule,
    the [go] statement that starts the listener comes before the send. *)
Lemma listener_started_before_send
  (E : Env) (op : Operation) (c : client) (pl : ReqPayload (ReqBody E op))
  (sched : list action) :
  Client.IsAsync c = true ->
  go_before_send false (call_trace E op c pl sched) = true.
Proof.
  intros Hasync. unfold Client.IsAsync in Hasync.
  destruct (redisClient c) as [rc|] eqn:Hrc; [|discriminate].
  apply (go_statement_precedes_send E op c _ _ rc Hrc).
Qed.

(** * Further properties of the client *)

(** ** Construction *)

Lemma is_empty_false (s : string) : is_empty s = false <-> s <> "".
Proof. unfold is_empty. apply String.eqb_neq. Qed.

(** X1.  A client that [NewClient] returns is async exactly when the
    configuration holds a Redis client and no TLS setting: with any of
    [CACert], [TLSCert], [TLSKey] set the Redis client of the configuration
    is dropped. *)
Theorem NewClient_async_iff (E : Env) (config : ClientConfig) (cl : client) :
  NewClient E config = Ok cl ->
  (Client.IsAsync cl = true <->
   RedisClient config <> None /\ CACert config = ""
   /\ TLSCert config = "" /\ TLSKey config = "").
Proof.
  intros Hnew.
  destruct (is_empty (CACert config) && is_empty (TLSCert config)
            && is_empty (TLSKey config)) eqn:Hcond.
  - assert (Hc := Hcond).
    apply andb_prop in Hc. destruct Hc as [Hc H3].
    apply andb_prop in Hc. destruct Hc as [H1 H2].
    apply is_empty_true in H1, H2, H3.
    unfold NewClient in Hnew. rewrite Hcond in Hnew. injection Hnew as <-.
    unfold Client.IsAsync. simpl.
    destruct (RedisClient config); split; intros H; try tauto;
      try discriminate; repeat split; auto; try discriminate.
  - assert (Htls : CACert config <> "" \/ TLSCert config <> ""
                   \/ TLSKey config <> "").
    { apply andb_false_iff in Hcond. destruct Hcond as [Hcond|Hcond].
      - apply andb_false_iff in Hcond.
        destruct Hcond as [H|H]; apply is_empty_false in H; auto.
      - apply is_empty_false in Hcond. auto. }
    destruct (NewClient_tls E config cl Htls Hnew) as [tc ->].
    unfold Client.IsAsync. simpl. split; [discriminate|].
    intros (_ & H1 & H2 & H3). tauto.
Qed.

Lemma NewClient_async_iff_witness :
  Client.IsAsync cl_async = true
  <-> RedisClient cfg_async <> None /\ CACert cfg_async = ""
      /\ TLSCert cfg_async = "" /\ TLSKey cfg_async = "".
Proof.
  apply (NewClient_async_iff env_ack cfg_async cl_async). reflexivity.
Defined.

(** X3.  [NewClient] fails in exactly three ways: the CA file cannot be
    read, its content is no certificate, or (the CA part being fine) the key
    pair cannot be loaded; each is reported with its own message, and the CA
    failures come first. *)
Theorem NewClient_failures (E : Env) (config : ClientConfig) (e : error) :
  NewClient E config = Err e <->
  (CACert config <> ""
   /\ exists err, ioutil_ReadFile E (CACert config) = Err err
                  /\ e = errors_Wrap err "read ca cert error")
  \/ (CACert config <> ""
      /\ exists raw, ioutil_ReadFile E (CACert config) = Ok raw
                     /\ AppendCertsFromPEM E raw = false
                     /\ e = errors_New "append ca cert to pool error")
  \/ ((CACert config = ""
       \/ exists raw, ioutil_ReadFile E (CACert config) = Ok raw
                      /\ AppendCertsFromPEM E raw = true)
      /\ (TLSCert config <> "" \/ TLSKey config <> "")
      /\ exists err,
           tls_LoadX509KeyPair E (TLSCert config) (TLSKey config) = Err err
           /\ e = errors_Wrap err "load x509 keypair error").
Proof.
  split.
  - unfold NewClient, bind.
    destruct (is_empty (CACert config)) eqn:H1;
      destruct (is_empty (TLSCert config)) eqn:H2;
      destruct (is_empty (TLSKey config)) eqn:H3; simpl;
      repeat match goal with
             | H : is_empty _ = true |- _ =>
                 apply (proj1 (is_empty_true _)) in H
             | H : is_empty _ = false |- _ =>
                 apply (proj1 (is_empty_false _)) in H
             end;
      repeat match goal with
             | |- context [match ?x with _ => _ end] =>
                 lazymatch x with
                 | context [match _ with _ => _ end] => fail
                 | _ => destruct x eqn:?
                 end
             end; simpl;
      repeat match goal with
             | H : negb _ = true |- _ => apply negb_true_iff in H
             | H : negb _ = false |- _ => apply negb_false_iff in H
             end;
      intros H; try discriminate; injection H as <-;
      first [ solve [left; split; [assumption|]; eexists; repeat split; eauto]
            | solve [right; left; split; [assumption|]; eexists;
                     repeat split; eauto]
            | solve [right; right;
                     split; [first [ left; assumption
                                   | right; eexists; split; eauto ]|];
                     split; [tauto|]; eexists; split; eauto] ].
  - intros [(Hca & err & Hr & ->)
           |[(Hca & raw & Hr & Ha & ->)|(Hca & Hk & err & Hl & ->)]];
      unfold NewClient, bind.
    + apply is_empty_false in Hca. rewrite Hca. simpl. now rewrite Hr.
    + apply is_empty_false in Hca. rewrite Hca. simpl. now rewrite Hr, Ha.
    + assert (Hk' : negb (is_empty (TLSCert config))
                    || negb (is_empty (TLSKey config)) = true).
      { destruct Hk as [Hk|Hk]; apply is_empty_false in Hk; rewrite Hk;
          simpl; [reflexivity|apply orb_true_r]. }
      assert (Hc : is_empty (CACert config) && is_empty (TLSCert config)
                   && is_empty (TLSKey config) = false).
      { destruct Hk as [Hk|Hk]; apply is_empty_false in Hk; rewrite Hk;
          [rewrite andb_false_r; reflexivity|apply andb_false_r]. }
      rewrite Hc, Hk'.
      destruct Hca as [Hca|(raw & Hr & Ha)].
      * apply is_empty_true in Hca. rewrite Hca. simpl. now rewrite Hl.
      * destruct (is_empty (CACert config)); simpl; [now rewrite Hl|].
        rewrite Hr, Ha. simpl. now rewrite Hl.
Qed.

Lemma NewClient_failures_witness :
  NewClient (mkEnv (fun _ => unit) (fun _ => unit) (fun _ => tt)
                   (fun _ => toy_marshal_req) (fun _ => toy_marshal_ans)
                   (fun _ => toy_unmarshal) (fun _ _ _ => Err (lib_error ""))
                   (fun _ _ _ => None) (fun _ => Ok [])
                   (fun _ => false) (fun _ _ => Ok []))
            (mkClientConfig "" "" "" "ca.pem" "cert.pem" "key.pem" None 0)
  = Err (errors_New "append ca cert to pool error").
Proof.
  apply NewClient_failures. right. left.
  split; [simpl; discriminate|].
  exists []. repeat split.
Defined.

(** X4.  A client built with TLS settings carries the configured server and
    a TLS configuration made of what was configured: the CA pool holds the
    content of the CA file exactly when [CACert] is set, and the certificate
    list holds the loaded key pair exactly when [TLSCert] or [TLSKey] is
    set (the pair is then loaded even if one of the two is empty). *)
Theorem NewClient_tls_config (E : Env) (config : ClientConfig) (cl : client) :
  CACert config <> "" \/ TLSCert config <> "" \/ TLSKey config <> "" ->
  NewClient E config = Ok cl ->
  server cl = Server config
  /\ exists tc,
       httpClient cl = http_ClientWithTransport tc
       /\ (CACert config = "" -> RootCAs tc = None)
       /\ (CACert config <> "" ->
           exists raw, ioutil_ReadFile E (CACert config) = Ok raw
                       /\ AppendCertsFromPEM E raw = true
                       /\ RootCAs tc = Some [raw])
       /\ (TLSCert config = "" /\ TLSKey config = "" -> Certificates tc = [])
       /\ (TLSCert config <> "" \/ TLSKey config <> "" ->
           exists cert,
             tls_LoadX509KeyPair E (TLSCert config) (TLSKey config) = Ok cert
             /\ Certificates tc = [cert]).
Proof.
  intros Htls. unfold NewClient, bind.
  destruct (is_empty (CACert config)) eqn:H1;
    destruct (is_empty (TLSCert config)) eqn:H2;
    destruct (is_empty (TLSKey config)) eqn:H3; simpl;
    repeat match goal with
           | H : is_empty _ = true |- _ =>
               apply (proj1 (is_empty_true _)) in H
           | H : is_empty _ = false |- _ =>
               apply (proj1 (is_empty_false _)) in H
           end;
    try tauto;
    repeat match goal with
           | |- context [match ?x with _ => _ end] =>
               lazymatch x with
               | context [match _ with _ => _ end] => fail
               | _ => destruct x eqn:?
               end
           end; simpl;
    repeat match goal with
           | H : negb _ = true |- _ => apply negb_true_iff in H
           | H : negb _ = false |- _ => apply negb_false_iff in H
           end;
    intros H; try discriminate; injection H as <-; simpl;
    (split; [reflexivity|]); eexists; (split; [reflexivity|]); simpl;
    repeat split; intros; try tauto; try congruence; eauto.
Qed.

Lemma NewClient_tls_config_witness :
  server cl_tls = Server cfg_tls
  /\ exists tc,
       httpClient cl_tls = http_ClientWithTransport tc
       /\ (CACert cfg_tls = "" -> RootCAs tc = None)
       /\ (CACert cfg_tls <> "" ->
           exists raw, ioutil_ReadFile env_ack (CACert cfg_tls) = Ok raw
                       /\ AppendCertsFromPEM env_ack raw = true
                       /\ RootCAs tc = Some [raw])
       /\ (TLSCert cfg_tls = "" /\ TLSKey cfg_tls = "" ->
           Certificates tc = [])
       /\ (TLSCert cfg_tls <> "" \/ TLSKey cfg_tls <> "" ->
           exists cert,
             tls_LoadX509KeyPair env_ack (TLSCert cfg_tls) (TLSKey cfg_tls)
             = Ok cert
             /\ Certificates tc = [cert]).
Proof.
  apply (NewClient_tls_config env_ack cfg_tls cl_tls).
  - right. left. simpl. discriminate.
  - vm_compute. reflexivity.
Defined.

(** ** Correlation keys across operations *)

Lemma tag_of_inj (op1 op2 : Operation) : tag_of op1 = tag_of op2 -> op1 = op2.
Proof. destruct op1, op2; simpl; intros H; try discriminate; reflexivity. Qed.

(** X5.  The key on which the handler of [op2] publishes an answer is the
    key on which a request of [op1] listens only if the operations are the
    same and the answer carries the transaction id of the request: answers
    of other operations or transactions go to other keys. *)
Theorem keys_meet_only_on_same_transaction
  (E : Env) (op1 op2 : Operation) (c1 c2 : client)
  (pl : ReqPayload (ReqBody E op1)) (a : AnsPayload (AnsBody E op2))
  (body : bytes) (out : outcome) :
  handle E op2 c2 a
  = (Some (request_key E op1 (stamp c1 (tag_of op1) pl), body), out) ->
  op1 = op2
  /\ BasePayload.TransactionID (ans_base a)
     = BasePayload.TransactionID (req_base pl).
Proof.
  rewrite handle_unfold. unfold writeAsync, request_key. simpl.
  remember (getAsyncKey (tag_of op2)
                        (BasePayload.TransactionID (ans_base a))) as k2
    eqn:Hk2.
  remember (getAsyncKey (tag_of op1)
                        (BasePayload.TransactionID (req_base pl))) as k1
    eqn:Hk1.
  destruct (json_Marshal_ans E op2 a); [|discriminate].
  destruct (redisClient c2); [|discriminate].
  destruct (redis_Publish E r k2 a0); intros H; injection H as Hk _ _;
    rewrite Hk1, Hk2 in Hk;
    apply getAsyncKey_inj in Hk; destruct Hk as [Ht Hi];
    apply tag_of_inj in Ht; auto.
Qed.

Lemma keys_meet_only_on_same_transaction_witness :
  OpPRStart = OpPRStart
  /\ BasePayload.TransactionID
       (ans_base (mkAnsPayload (BasePayload.mk "" "" "" 7%N "")
                               (Result.mk "Success" "") tt))
     = BasePayload.TransactionID (req_base start7).
Proof.
  apply (keys_meet_only_on_same_transaction env_ack OpPRStart OpPRStart
           cl_async cl_async start7
           (mkAnsPayload (BasePayload.mk "" "" "" 7%N "")
                         (Result.mk "Success" "") tt)
           (bytes_of_string "Success|") (Returns None)).
  reflexivity.
Defined.

(** ** Publishing an answer *)

(** X6.  [writeAsync] asks the broker for at most one publish, of the
    marshalled answer; it returns no error exactly when the answer marshals,
    the client has a Redis client and the broker accepts the publish; an
    answer that does not marshal is never published; on a client without
    Redis client it ends in a nil dereference once the answer is
    marshalled. *)
Theorem writeAsync_outcome
  (E : Env) (op : Operation) (c : client) (typ : MessageType)
  (pl : AnsPayload (AnsBody E op)) :
  (forall key body,
      fst (writeAsync E op c typ pl) = Some (key, body) ->
      json_Marshal_ans E op pl = Ok body
      /\ key = getAsyncKey typ (BasePayload.TransactionID (ans_base pl))
      /\ Client.IsAsync c = true)
  /\ (snd (writeAsync E op c typ pl) = Returns None <->
      exists body rc,
        json_Marshal_ans E op pl = Ok body /\ redisClient c = Some rc
        /\ redis_Publish E rc
             (getAsyncKey typ (BasePayload.TransactionID (ans_base pl))) body
           = None)
  /\ (forall err,
         json_Marshal_ans E op pl = Err err ->
         writeAsync E op c typ pl
         = (None, Returns (Some (errors_Wrap err "marshal answer error"))))
  /\ (snd (writeAsync E op c typ pl) = Panics <->
      Client.IsAsync c = false
      /\ exists body, json_Marshal_ans E op pl = Ok body)
  /\ (forall err,
         snd (writeAsync E op c typ pl) = Returns (Some err) ->
         exists cause,
           err = errors_Wrap cause "marshal answer error"
           \/ err = errors_Wrap cause "publish answer error").
Proof.
  unfold writeAsync, Client.IsAsync.
  destruct (json_Marshal_ans E op pl) as [b|e] eqn:Hm;
    destruct (redisClient c) as [rc|] eqn:Hrc; simpl;
    try destruct (redis_Publish E rc _ b) eqn:Hpub; simpl;
    repeat split; intros;
    repeat match goal with
           | H : exists _, _ |- _ => destruct H
           | H : _ /\ _ |- _ => destruct H
           | H : Some _ = Some _ |- _ => injection H as H
           | H : (_, _) = (_, _) |- _ => injection H as H
           | H : Ok _ = Ok _ |- _ => injection H as H
           | H : Err _ = Err _ |- _ => injection H as H
           | H : Returns _ = Returns _ |- _ => injection H as H
           end;
    subst; try discriminate; try congruence; eauto.
Qed.

(** ** Pushing an answer over HTTP *)

(** X7.  [SendAnswer] returns no error exactly when the answer marshals, the
    send succeeds and the status is 200 (the body is then not read); it
    sends at most one request, to the configured server, carrying the
    marshalled answer, and nothing when the answer does not marshal; on
    another status the error is the wrapped read error or the message
    holding status and body. *)
Theorem SendAnswer_outcome
  (E : Env) (op : Operation) (c : client) (pl : AnsPayload (AnsBody E op)) :
  (snd (SendAnswer E op c pl) = None <->
   exists b resp,
     json_Marshal_ans E op pl = Ok b
     /\ http_Post E (httpClient c) (server c) b = Ok resp
     /\ StatusCode resp = 200%Z)
  /\ (forall srv body,
         In (srv, body) (posts (fst (SendAnswer E op c pl))) ->
         srv = server c /\ json_Marshal_ans E op pl = Ok body)
  /\ length (posts (fst (SendAnswer E op c pl))) <= 1
  /\ (forall err,
         json_Marshal_ans E op pl = Err err ->
         SendAnswer E op c pl
         = ([], Some (errors_Wrap err "json marshal error")))
  /\ (forall b resp,
         json_Marshal_ans E op pl = Ok b ->
         http_Post E (httpClient c) (server c) b = Ok resp ->
         StatusCode resp <> 200%Z ->
         snd (SendAnswer E op c pl)
         = match Body resp with
           | Ok bb =>
               Some (fmt_Errorf
                       ("expected: 200, got: " ++ fmt_int (StatusCode resp)
                        ++ " (" ++ string_of_bytes bb ++ ")"))
           | Err err => Some (errors_Wrap err "read body error")
           end).
Proof.
  unfold SendAnswer.
  destruct (json_Marshal_ans E op pl) as [b|e] eqn:Hm; simpl.
  - destruct (http_Post E (httpClient c) (server c) b) as [resp|e] eqn:Hp;
      simpl.
    + destruct (Z.eqb_spec (StatusCode resp) 200) as [H200|H200]; simpl.
      * repeat split; intros; eauto; try discriminate; try lia;
          try (destruct H as [H|[]]; injection H as <- <-; auto; fail).
        -- injection H as <-. congruence.
      * destruct (Body resp) as [bb|e] eqn:Hb; simpl;
          (repeat split; intros; eauto; try discriminate; try lia;
           try (destruct H as [H|[]]; injection H as <- <-; auto; fail);
           try (destruct H as (b' & resp' & Hb' & Hp' & Hs');
                injection Hb' as <-; congruence);
           try (injection H as <-; rewrite Hp in H0; injection H0 as <-;
                rewrite Hb; reflexivity)).
    + repeat split; intros; eauto; try discriminate; try lia;
        try (destruct H as [H|[]]; injection H as <- <-; auto; fail);
        try (destruct H as (b' & resp' & Hb' & Hp' & Hs');
             injection Hb' as <-; congruence);
        try (injection H as <-; congruence).
  - repeat split; intros; eauto; try discriminate; try lia;
      try contradiction;
      try (destruct H as (b' & resp' & Hb' & Hp' & Hs'); discriminate);
      try congruence.
Qed.

Lemma SendAnswer_outcome_witness :
  snd (SendAnswer (env_reply 404 "not found") OpPRStart cl_sync
         (mkAnsPayload (BasePayload.mk "" "" "" 7%N "")
                       (Result.mk "Success" "") tt))
  = Some (fmt_Errorf "expected: 200, got: 404 (not found)").
Proof.
  destruct (SendAnswer_outcome (env_reply 404 "not found") OpPRStart cl_sync
              (mkAnsPayload (BasePayload.mk "" "" "" 7%N "")
                            (Result.mk "Success" "") tt))
    as (_ & _ & _ & _ & H).
  apply (H (bytes_of_string "Success|")
           (mkResponse 404 (Ok (bytes_of_string "not found")))
           eq_refl eq_refl).
  simpl. discriminate.
Defined.

(** ** Transaction ids *)

(** Below [2^k], or-ing in a value shifted by [k] adds it. *)
Lemma lor_shiftl_add (a b k : N) :
  (a < 2 ^ k)%N -> N.lor a (N.shiftl b k) = (a + b * 2 ^ k)%N.
Proof.
  intros Ha.
  assert (Hdisj : N.land a (N.shiftl b k) = 0%N).
  { apply N.bits_inj. intros m. rewrite N.land_spec, N.bits_0.
    destruct (N.lt_ge_cases m k) as [Hlt|Hge].
    - rewrite N.shiftl_spec_low by assumption. apply andb_false_r.
    - rewrite <- (N.mod_small a (2 ^ k)) by assumption.
      rewrite N.mod_pow2_bits_high by assumption. reflexivity. }
  rewrite <- N.lxor_lor by assumption.
  rewrite <- N.add_nocarry_lxor by assumption.
  now rewrite N.shiftl_mul_pow2.
Qed.

Lemma byte_lt_256 (x : Byte.byte) : (Byte.to_N x < 256)%N.
Proof. assert (H := Byte.to_N_bounded x). lia. Qed.

(** The value of four little-endian bytes. *)
Lemma LittleEndian_Uint32_value (b0 b1 b2 b3 : Byte.byte) (rest : bytes) :
  LittleEndian_Uint32 (b0 :: b1 :: b2 :: b3 :: rest)
  = Some (Byte.to_N b0 + 256 * Byte.to_N b1 + 65536 * Byte.to_N b2
          + 16777216 * Byte.to_N b3)%N.
Proof.
  unfold LittleEndian_Uint32. f_equal.
  assert (H0 := byte_lt_256 b0). assert (H1 := byte_lt_256 b1).
  assert (H2 := byte_lt_256 b2). assert (H3 := byte_lt_256 b3).
  rewrite (lor_shiftl_add (Byte.to_N b0) (Byte.to_N b1) 8)
    by (change (2 ^ 8)%N with 256%N; lia).
  change (2 ^ 8)%N with 256%N.
  rewrite (lor_shiftl_add _ (Byte.to_N b2) 16)
    by (change (2 ^ 16)%N with 65536%N; lia).
  change (2 ^ 16)%N with 65536%N.
  rewrite (lor_shiftl_add _ (Byte.to_N b3) 24)
    by (change (2 ^ 24)%N with 16777216%N; lia).
  change (2 ^ 24)%N with 16777216%N. lia.
Qed.

Lemma base256_inj (a p b q : N) :
  (a + 256 * p = b + 256 * q)%N -> (a < 256)%N -> (b < 256)%N ->
  a = b /\ p = q.
Proof. intros. lia. Qed.

(** Four digits in base 256 determine the number. *)
Lemma base256_inj4 (a0 a1 a2 a3 b0 b1 b2 b3 : N) :
  (a0 < 256)%N -> (a1 < 256)%N -> (a2 < 256)%N -> (a3 < 256)%N ->
  (b0 < 256)%N -> (b1 < 256)%N -> (b2 < 256)%N -> (b3 < 256)%N ->
  (a0 + 256 * a1 + 65536 * a2 + 16777216 * a3
   = b0 + 256 * b1 + 65536 * b2 + 16777216 * b3)%N ->
  a0 = b0 /\ a1 = b1 /\ a2 = b2 /\ a3 = b3.
Proof.
  intros.
  assert (a0 = b0 /\ (a1 + 256 * a2 + 65536 * a3
                      = b1 + 256 * b2 + 65536 * b3)%N) as [-> H'].
  { apply base256_inj; lia. }
  assert (a1 = b1 /\ (a2 + 256 * a3 = b2 + 256 * b3)%N) as [-> H''].
  { apply base256_inj; lia. }
  assert (a2 = b2 /\ a3 = b3) as [-> ->].
  { apply base256_inj; lia. }
  auto.
Qed.

Lemma byte_to_N_inj (x y : Byte.byte) : Byte.to_N x = Byte.to_N y -> x = y.
Proof.
  intros H. assert (Hx := Byte.of_to_N x). rewrite H in Hx.
  rewrite Byte.of_to_N in Hx. congruence.
Qed.

Lemma byte_of_small (n : N) :
  (n < 256)%N -> exists x, Byte.to_N x = n.
Proof.
  intros Hn. assert (H := Byte.to_of_N_option_map n).
  destruct (Byte.of_N n) as [x|] eqn:Hx; simpl in H.
  - exists x. now apply Byte.to_of_N.
  - destruct (N.leb_spec n 255); [discriminate|lia].
Qed.

(** What is left in a four-byte buffer is four bytes. *)
Lemma written_four (w : bytes) :
  exists b0 b1 b2 b3,
    written [Byte.x00; Byte.x00; Byte.x00; Byte.x00] w = [b0; b1; b2; b3].
Proof.
  unfold written.
  destruct w as [|w0 [|w1 [|w2 [|w3 rest]]]]; simpl; eauto.
Qed.

(** X8.  [GetRandomTransactionID] reads the four bytes that [rand.Read]
    left in the buffer as a little-endian number: the first byte is the
    least significant, the fourth the most significant.  So two fillings of
    the buffer give the same id only if they are the same four bytes, and
    every 32-bit value is the id of some filling.  Nothing else counts: what
    [rand.Read] reports is not looked at, so that whenever it returns, even
    having written fewer than four bytes, an id below [2^32] is returned;
    and no id is returned only when [rand.Read] ends the process. *)
Theorem GetRandomTransactionID_little_endian :
  (forall rand_Read b0 b1 b2 b3,
      rand_Read [Byte.x00; Byte.x00; Byte.x00; Byte.x00]
      = Some [b0; b1; b2; b3] ->
      GetRandomTransactionID rand_Read
      = Some (Byte.to_N b0 + 2 ^ 8 * Byte.to_N b1 + 2 ^ 16 * Byte.to_N b2
              + 2 ^ 24 * Byte.to_N b3)%N)
  /\ (forall r1 r2 f1 f2,
         r1 [Byte.x00; Byte.x00; Byte.x00; Byte.x00] = Some f1 ->
         r2 [Byte.x00; Byte.x00; Byte.x00; Byte.x00] = Some f2 ->
         length f1 = 4 -> length f2 = 4 ->
         GetRandomTransactionID r1 = GetRandomTransactionID r2 ->
         f1 = f2)
  /\ (forall id,
         (id < 2 ^ 32)%N ->
         exists filled,
           length filled = 4
           /\ GetRandomTransactionID (fun _ => Some filled) = Some id)
  /\ (forall rand_Read w,
         rand_Read [Byte.x00; Byte.x00; Byte.x00; Byte.x00] = Some w ->
         exists id, GetRandomTransactionID rand_Read = Some id
                    /\ (id < 2 ^ 32)%N)
  /\ (forall rand_Read,
         GetRandomTransactionID rand_Read = None
         <-> rand_Read [Byte.x00; Byte.x00; Byte.x00; Byte.x00] = None).
Proof.
  assert (Hfour : forall f : bytes,
             length f = 4 -> exists b0 b1 b2 b3, f = [b0; b1; b2; b3]).
  { intros f Hlen.
    destruct f as [|b0 [|b1 [|b2 [|b3 [|b4 l]]]]]; try discriminate.
    eauto. }
  change (2 ^ 8)%N with 256%N. change (2 ^ 16)%N with 65536%N.
  change (2 ^ 24)%N with 16777216%N. change (2 ^ 32)%N with 4294967296%N.
  split; [|split; [|split; [|split]]].
  - intros r b0 b1 b2 b3 Hr.
    unfold GetRandomTransactionID. rewrite Hr.
    change (written _ [b0; b1; b2; b3]) with [b0; b1; b2; b3].
    apply LittleEndian_Uint32_value.
  - intros r1 r2 f1 f2 Hr1 Hr2 Hl1 Hl2.
    destruct (Hfour f1 Hl1) as (x0 & x1 & x2 & x3 & ->).
    destruct (Hfour f2 Hl2) as (y0 & y1 & y2 & y3 & ->).
    unfold GetRandomTransactionID. rewrite Hr1, Hr2.
    change (written _ [x0; x1; x2; x3]) with [x0; x1; x2; x3].
    change (written _ [y0; y1; y2; y3]) with [y0; y1; y2; y3].
    rewrite !LittleEndian_Uint32_value. intros H. injection H as H.
    assert (Hx0 := byte_lt_256 x0). assert (Hx1 := byte_lt_256 x1).
    assert (Hx2 := byte_lt_256 x2). assert (Hx3 := byte_lt_256 x3).
    assert (Hy0 := byte_lt_256 y0). assert (Hy1 := byte_lt_256 y1).
    assert (Hy2 := byte_lt_256 y2). assert (Hy3 := byte_lt_256 y3).
    destruct (base256_inj4 _ _ _ _ _ _ _ _ Hx0 Hx1 Hx2 Hx3 Hy0 Hy1 Hy2 Hy3 H)
      as (E0 & E1 & E2 & E3).
    apply byte_to_N_inj in E0, E1, E2, E3. congruence.
  - intros id Hid.
    destruct (byte_of_small (id mod 256)) as [b0 H0];
      [apply N.mod_lt; discriminate|].
    destruct (byte_of_small ((id / 256) mod 256)) as [b1 H1];
      [apply N.mod_lt; discriminate|].
    destruct (byte_of_small ((id / 65536) mod 256)) as [b2 H2];
      [apply N.mod_lt; discriminate|].
    destruct (byte_of_small (id / 16777216)) as [b3 H3].
    { apply N.Div0.div_lt_upper_bound. lia. }
    exists [b0; b1; b2; b3]. split; [reflexivity|].
    unfold GetRandomTransactionID.
    change (written _ [b0; b1; b2; b3]) with [b0; b1; b2; b3].
    rewrite LittleEndian_Uint32_value.
    f_equal. rewrite H0, H1, H2, H3.
    assert (D0 := N.div_mod id 256 ltac:(discriminate)).
    assert (D1 := N.div_mod (id / 256) 256 ltac:(discriminate)).
    assert (D2 := N.div_mod (id / 65536) 256 ltac:(discriminate)).
    assert (Q1 : (id / 256 / 256 = id / 65536)%N)
      by (rewrite N.Div0.div_div; reflexivity).
    assert (Q2 : (id / 65536 / 256 = id / 16777216)%N)
      by (rewrite N.Div0.div_div; reflexivity).
    rewrite Q1 in D1. rewrite Q2 in D2. lia.
  - intros r w Hr. unfold GetRandomTransactionID. rewrite Hr.
    destruct (written_four w) as (b0 & b1 & b2 & b3 & ->).
    rewrite LittleEndian_Uint32_value. eexists. split; [reflexivity|].
    assert (H0 := byte_lt_256 b0). assert (H1 := byte_lt_256 b1).
    assert (H2 := byte_lt_256 b2). assert (H3 := byte_lt_256 b3). lia.
  - intros r. unfold GetRandomTransactionID.
    destruct (r [Byte.x00; Byte.x00; Byte.x00; Byte.x00]) as [w|];
      [|split; reflexivity].
    destruct (written_four w) as (b0 & b1 & b2 & b3 & ->).
    rewrite LittleEndian_Uint32_value. split; discriminate.
Qed.

Lemma GetRandomTransactionID_witness :
  GetRandomTransactionID
    (fun _ => Some [Byte.x07; Byte.x01; Byte.x00; Byte.x00]) = Some 263%N.
Proof.
  destruct GetRandomTransactionID_little_endian as (H & _).
  apply (H (fun _ => Some [Byte.x07; Byte.x01; Byte.x00; Byte.x00])
           Byte.x07 Byte.x01 Byte.x00 Byte.x00 eq_refl).
Defined.

(** ** More on [request] *)

(** Events that are not the client's doing: a publish of the peer that finds
    no subscription, and the return itself. *)
Definition idle_event (ev : event) : Prop :=
  match ev with
  | EvPublished _ _ false | EvReturn _ => True
  | _ => False
  end.

Section MarshalFails.

Variable E : Env.
Variable op : Operation.
Variable c : client.
Variable pl : ReqPayload (ReqBody E op).
Variable ans : AnsPayload (AnsBody E op).
Variable e : error.
Hypothesis Hm : json_Marshal_req E op pl = Err e.

Let St : Type := state (AnsPayload (AnsBody E op)).
Let final : main_pc := MReturned (Some (errors_Wrap e "json marshal error")).

Lemma marshal_fails_step (a : action) (s : St) (n : nat) :
  s_main s = pc_after [MMarshal] final n -> s_ans s = ans ->
  s_main (step E op c pl a s) = pc_after [MMarshal] final (n + main_moves [a])
  /\ s_ans (step E op c pl a s) = ans.
Proof.
  intros Hpc Hans.
  destruct (main_moves [a]) eqn:Hmv.
  - rewrite Nat.add_0_r.
    destruct (other_moves_frame E op c pl a s Hmv) as [-> ->]. auto.
  - destruct a; simpl in Hmv; try discriminate.
    injection Hmv as <-. rewrite Nat.add_1_r.
    destruct s as [m g rc ec an sub q clk tr]; simpl in *. subst an.
    destruct n as [|n]; simpl in Hpc; subst m; unfold step, main_step; simpl.
    + rewrite Hm. auto.
    + destruct n; auto.
Qed.

Lemma marshal_fails_run (sched : list action) (s : St) (n : nat) :
  s_main s = pc_after [MMarshal] final n -> s_ans s = ans ->
  s_main (run E op c pl sched s)
  = pc_after [MMarshal] final (n + main_moves sched)
  /\ s_ans (run E op c pl sched s) = ans.
Proof.
  revert s n. induction sched as [|a rest IH]; intros s n Hpc Hans.
  - simpl. rewrite Nat.add_0_r. auto.
  - destruct (marshal_fails_step a s n Hpc Hans) as [Hpc' Hans'].
    destruct (IH _ _ Hpc' Hans') as [H1 H2].
    split; [|exact H2].
    cbn [run]. rewrite H1. f_equal.
    change (a :: rest) with (([a] ++ rest)%list).
    rewrite main_moves_app. lia.
Qed.

Lemma marshal_fails_quiet (sched : list action) :
  s_go (run E op c pl sched (init E op ans)) = None
  /\ s_subscribed (run E op c pl sched (init E op ans)) = false
  /\ Forall idle_event (s_trace (run E op c pl sched (init E op ans))).
Proof.
  cut ((s_main (run E op c pl sched (init E op ans)) = MMarshal
        \/ s_main (run E op c pl sched (init E op ans)) = final)
       /\ s_go (run E op c pl sched (init E op ans)) = None
       /\ s_subscribed (run E op c pl sched (init E op ans)) = false
       /\ Forall idle_event (s_trace (run E op c pl sched (init E op ans))));
    [tauto|].
  apply (run_invariant E op c pl
           (fun s => (s_main s = MMarshal \/ s_main s = final)
                     /\ s_go s = None /\ s_subscribed s = false
                     /\ Forall idle_event (s_trace s)));
    [|simpl; auto].
  intros a s (Hpc & Hg & Hsub & Htr).
  destruct s as [m g rc ec an sub q clk tr]; simpl in *. subst g sub.
  remember (step E op c pl a (mkState m None rc ec an false q clk tr)) as s'
    eqn:Hs'.
  destruct a as [tie|tie|key payload|d];
    [destruct Hpc as [->| ->]| | |];
    step_in Hs'; subst s'; simpl;
    try (rewrite Hm in *; discriminate);
    try match goal with
        | H : Err _ = Err _ |- _ => injection H as ->
        end;
    repeat split; auto;
    try (left; reflexivity); try (right; reflexivity);
    repeat (apply Forall_app; split; auto);
    repeat constructor; simpl; auto.
Qed.

(** X9.  When the payload does not marshal, [request] returns the wrapped
    marshal error at the first move of the calling thread, in sync and in
    async mode alike, and the client does nothing else: no goroutine, no
    subscription, no send; [*ans] is untouched. *)
Theorem marshal_failure_sends_nothing (sched : list action) :
  request E op c pl ans sched
  = (if Nat.leb 1 (main_moves sched)
     then Some (ans, Some (errors_Wrap e "json marshal error"))
     else None)
  /\ posts (s_trace (run E op c pl sched (init E op ans))) = []
  /\ go_started (s_trace (run E op c pl sched (init E op ans))) = false
  /\ s_go (run E op c pl sched (init E op ans)) = None
  /\ s_subscribed (run E op c pl sched (init E op ans)) = false.
Proof.
  destruct (marshal_fails_quiet sched) as (Hg & Hsub & Htr).
  destruct (marshal_fails_run sched (init E op ans) 0 eq_refl eq_refl)
    as [Hpc Hans].
  repeat split; auto.
  - unfold request. rewrite Hpc, Hans. simpl.
    destruct (main_moves sched) as [|[|n]]; reflexivity.
  - induction Htr as [|ev tr Hev _ IH]; [reflexivity|].
    destruct ev; simpl in *; try contradiction; auto.
  - unfold go_started. induction Htr as [|ev tr Hev _ IH]; [reflexivity|].
    destruct ev; simpl in *; try contradiction; auto.
Qed.

End MarshalFails.

Lemma marshal_failure_witness :
  request (mkEnv (fun _ => unit) (fun _ => unit) (fun _ => tt)
                 (fun _ _ => Err (lib_error "unsupported value"))
                 (fun _ => toy_marshal_ans) (fun _ => toy_unmarshal)
                 (fun _ _ _ => Ok (mkResponse 200 (Ok [])))
                 (fun _ _ _ => None) (fun _ => Ok [])
                 (fun _ => true) (fun _ _ => Ok []))
          OpPRStart cl_async start7
          (mkAnsPayload (BasePayload.mk "" "" "" 0%N "") (Result.mk "" "") tt)
          [Main true]
  = Some (mkAnsPayload (BasePayload.mk "" "" "" 0%N "") (Result.mk "" "") tt,
          Some (errors_Wrap (lib_error "unsupported value")
                            "json marshal error")).
Proof.
  apply (marshal_failure_sends_nothing
           (mkEnv (fun _ => unit) (fun _ => unit) (fun _ => tt)
                  (fun _ _ => Err (lib_error "unsupported value"))
                  (fun _ => toy_marshal_ans) (fun _ => toy_unmarshal)
                  (fun _ _ _ => Ok (mkResponse 200 (Ok [])))
                  (fun _ _ _ => None) (fun _ => Ok [])
                  (fun _ => true) (fun _ _ => Ok []))
           OpPRStart cl_async start7 _ (lib_error "unsupported value")
           eq_refl [Main true]).
Defined.

(** The bytes [bb] are a message that the broker delivered to the
    subscription of this request. *)
Definition from_key (E : Env) (op : Operation)
  (pl : ReqPayload (ReqBody E op)) (tr : list event) (bb : bytes) : Prop :=
  exists m, bb = bytes_of_string m
            /\ In (EvPublished (request_key E op pl) m true) tr.

(** What a result of [readAsync] can be. *)
Definition wait_result_ok (E : Env) (op : Operation)
  (pl : ReqPayload (ReqBody E op)) (tr : list event) (r : result bytes)
  : Prop :=
  match r with
  | Ok bb => from_key E op pl tr bb
  | Err err => err = ErrAsyncTimeout
  end.

(** How an async [request] can end. *)
Definition async_outcome (E : Env) (op : Operation) (c : client)
  (pl : ReqPayload (ReqBody E op)) (ans : AnsPayload (AnsBody E op))
  (tr : list event) (r : AnsPayload (AnsBody E op) * option error) : Prop :=
  (exists e, json_Marshal_req E op pl = Err e
             /\ r = (ans, Some (errors_Wrap e "json marshal error")))
  \/ (exists b e, json_Marshal_req E op pl = Ok b
                  /\ http_Post E (httpClient c) (server c) b = Err e
                  /\ r = (ans, Some (errors_Wrap e "http post error")))
  \/ r = (ans, Some ErrAsyncTimeout)
  \/ (exists m, In (EvPublished (request_key E op pl) m true) tr
                /\ r = decode_body E op ans (Ok (bytes_of_string m))).

(** Where messages and results come from, all along an async run. *)
Definition flow_inv (E : Env) (op : Operation) (c : client)
  (pl : ReqPayload (ReqBody E op)) (ans : AnsPayload (AnsBody E op))
  (s : state (AnsPayload (AnsBody E op))) : Prop :=
  Forall (fun m => In (EvPublished (request_key E op pl) m true) (s_trace s))
         (s_queue s)
  /\ (forall bb, s_responseChan s = Some bb ->
                 from_key E op pl (s_trace s) bb)
  /\ (forall err, s_errorChan s = Some err -> err = ErrAsyncTimeout)
  /\ (s_responseChan s = None \/ s_errorChan s = None)
  /\ (forall r, s_go s = Some (GClose r) \/ s_go s = Some (GSend r) ->
                wait_result_ok E op pl (s_trace s) r)
  /\ (forall key m, In (EvPublished key m true) (s_trace s) ->
                    key = request_key E op pl)
  /\ match s_main s with
     | MReturned err => async_outcome E op c pl ans (s_trace s) (s_ans s, err)
     | _ => s_ans s = ans
     end.

Lemma from_key_mono (E : Env) (op : Operation)
  (pl : ReqPayload (ReqBody E op)) (tr : list event) (ev : event)
  (bb : bytes) :
  from_key E op pl tr bb -> from_key E op pl (tr ++ [ev]) bb.
Proof.
  intros (m & Hm & Hin). exists m. split; [exact Hm|].
  apply in_or_app. now left.
Qed.

Lemma wait_result_mono (E : Env) (op : Operation)
  (pl : ReqPayload (ReqBody E op)) (tr : list event) (ev : event)
  (r : result bytes) :
  wait_result_ok E op pl tr r -> wait_result_ok E op pl (tr ++ [ev]) r.
Proof. destruct r; simpl; auto using from_key_mono. Qed.

Lemma queue_mono (k : string) (tr : list event) (ev : event)
  (q : list string) :
  Forall (fun m => In (EvPublished k m true) tr) q ->
  Forall (fun m => In (EvPublished k m true) (tr ++ [ev])) q.
Proof.
  apply Forall_impl. intros m H. apply in_or_app. now left.
Qed.

Lemma async_outcome_mono (E : Env) (op : Operation) (c : client)
  (pl : ReqPayload (ReqBody E op)) (ans : AnsPayload (AnsBody E op))
  (tr : list event) (ev : event)
  (r : AnsPayload (AnsBody E op) * option error) :
  async_outcome E op c pl ans tr r ->
  async_outcome E op c pl ans (tr ++ [ev]) r.
Proof.
  intros [H|[H|[H|(m & Hin & Hr)]]].
  - left. exact H.
  - right. left. exact H.
  - right. right. left. exact H.
  - right. right. right. exists m. split; [|exact Hr].
    apply in_or_app. now left.
Qed.

Lemma delivered_key_snoc (k : string) (tr : list event) (ev : event) :
  (forall key m, In (EvPublished key m true) tr -> key = k) ->
  (forall key m, ev = EvPublished key m true -> key = k) ->
  forall key m, In (EvPublished key m true) (tr ++ [ev]) -> key = k.
Proof.
  intros Htr Hev key m Hin. apply in_app_or in Hin.
  destruct Hin as [Hin|[Hin|[]]]; eauto.
Qed.

Ltac flow_auto :=
  repeat split; simpl;
  try (repeat (apply delivered_key_snoc; [|intros; discriminate]);
       assumption);
  intros;
  repeat match goal with
         | H : _ /\ _ |- _ => destruct H
         | H : exists _, _ |- _ => destruct H
         | H : Some _ = Some _ |- _ => injection H as H
         | H : Some _ = None |- _ => discriminate H
         | H : None = Some _ |- _ => discriminate H
         | H : _ \/ _ |- _ => destruct H
         end;
  subst; try discriminate; try congruence;
  eauto 6 using from_key_mono, wait_result_mono, queue_mono,
                async_outcome_mono.

Ltac outcome_solve :=
  first
    [ solve [left; eauto]
    | solve [right; left; eauto 6]
    | solve [right; right; left; repeat f_equal; eauto]
    | right; right; right;
      match goal with
      | H : forall bb, Some ?x = Some bb -> from_key _ _ _ _ bb |- _ =>
          let m := fresh "m" in
          let Hbb := fresh "Hbb" in
          let Hin := fresh "Hin" in
          destruct (H x eq_refl) as (m & Hbb & Hin);
          exists m; split;
          [ repeat (apply in_or_app; left); exact Hin
          | unfold decode_body; rewrite <- Hbb;
            match goal with
            | Hu : json_Unmarshal _ _ _ _ = _ |- _ => rewrite Hu
            end; reflexivity ]
      end ].

Section AsyncFlow.

Variable E : Env.
Variable op : Operation.
Variable c : client.
Variable pl : ReqPayload (ReqBody E op).
Variable ans : AnsPayload (AnsBody E op).
Variable rc : redis_Client.
Hypothesis Hasync : redisClient c = Some rc.

Let St : Type := state (AnsPayload (AnsBody E op)).

Lemma flow_inv_step (a : action) (s : St) :
  async_inv E op c pl s -> flow_inv E op c pl ans s ->
  flow_inv E op c pl ans (step E op c pl a s).
Proof.
  intros (Hmain & Hgo & _) (Hq & Hrch & Hech & Hone & Hres & Hkey & Hret).
  unfold flow_inv.
  destruct s as [m g rch ech an sub q clk tr].
  remember (step E op c pl a (mkState m g rch ech an sub q clk tr)) as s'
    eqn:Hs'.
  unfold main_inv, go_inv in *. simpl in *.
  destruct a as [tie|tie|key payload|d].
  - destruct m as [|b|b|resp| |err]; step_in Hs'; subst s'; simpl.
    all: flow_auto.
    all: outcome_solve.
  - destruct g as [[| |dl|r|[bb|e]|]|]; step_in Hs'; subst s'; simpl.
    all: flow_auto.
    all: try (destruct m; simpl in *; eauto using async_outcome_mono; fail).
    all: try (inversion Hq; subst; assumption).
    all: try (inversion Hq; subst; simpl; eexists;
              split; [reflexivity|assumption]).
    all: try match goal with
             | H : forall r, _ \/ _ -> wait_result_ok _ _ _ _ r
               |- from_key _ _ _ _ ?bb => apply (H (Ok bb)); auto
             | H : forall r, _ \/ _ -> wait_result_ok _ _ _ _ r
               |- ?e = ErrAsyncTimeout => apply (H (Err e)); auto
             end.
  - step_in Hs'; subst s'; simpl.
    all: try match goal with
             | H : _ && _ = true |- _ =>
                 apply andb_prop in H; destruct H as [_ H];
                 apply String.eqb_eq in H; subst key
             end.
    all: flow_auto.
    all: try (destruct m; simpl in *; eauto using async_outcome_mono; fail).
    all: try (apply Forall_app; split;
              [ apply queue_mono; assumption
              | repeat constructor; apply in_or_app; right; left;
                reflexivity ]).
    all: try match goal with
             | H : In _ (_ ++ _) |- _ =>
                 apply in_app_or in H; destruct H as [H|[H|[]]];
                 [eauto|injection H as -> _; reflexivity]
             end.
  - step_in Hs'. subst s'. simpl. repeat split; auto.
Qed.

Lemma flow_inv_run (sched : list action) :
  async_inv E op c pl (run E op c pl sched (init E op ans))
  /\ flow_inv E op c pl ans (run E op c pl sched (init E op ans)).
Proof.
  apply (run_invariant E op c pl
           (fun s => async_inv E op c pl s /\ flow_inv E op c pl ans s)).
  - intros a s [Ha Hf]. split.
    + apply (async_inv_step E op c pl rc Hasync a s Ha).
    + apply flow_inv_step; assumption.
  - split; [apply (async_inv_init E op c pl ans)|].
    unfold flow_inv. simpl. repeat split; auto; try discriminate.
    + intros r [H|H]; discriminate.
    + intros key m [].
Qed.

(** X10.  However the threads, the peer and the clock are scheduled, an
    async [request] that returns has ended in one of four ways: the marshal
    error, the transport error, the async timeout (all three with [*ans]
    untouched), or the decoding of a message that the broker delivered on
    the key of this very request.  It never returns anything read from the
    HTTP response, nor a message of another key. *)
Theorem async_request_outcomes (sched : list action)
  (r : AnsPayload (AnsBody E op) * option error) :
  request E op c pl ans sched = Some r ->
  async_outcome E op c pl ans
    (s_trace (run E op c pl sched (init E op ans))) r.
Proof.
  unfold request. intros H.
  destruct (flow_inv_run sched) as (_ & _ & _ & _ & _ & _ & _ & Hret).
  destruct (s_main (run E op c pl sched (init E op ans))); try discriminate.
  injection H as <-. exact Hret.
Qed.

(** X11.  In async mode the two result channels are never both full, the
    error channel only ever holds the timeout, and a message reaches the
    subscription only if it was published on the key of the request: the
    [select] of [request] never has to choose. *)
Theorem async_channels_exclusive (sched : list action) :
  (s_responseChan (run E op c pl sched (init E op ans)) = None
   \/ s_errorChan (run E op c pl sched (init E op ans)) = None)
  /\ (forall err,
         s_errorChan (run E op c pl sched (init E op ans)) = Some err ->
         err = ErrAsyncTimeout)
  /\ (forall key m,
         In (EvPublished key m true)
            (s_trace (run E op c pl sched (init E op ans))) ->
         key = request_key E op pl).
Proof.
  destruct (flow_inv_run sched) as (_ & _ & _ & H1 & H2 & _ & H3 & _).
  auto.
Qed.

End AsyncFlow.

Lemma async_request_outcomes_witness :
  async_outcome env_ack OpPRStart cl_async (stamp cl_async PRStartReq start7)
    (zero_ans env_ack OpPRStart)
    (call_trace env_ack OpPRStart cl_async start7
                (sched_listen_first "Success|"))
    (mkAnsPayload (BasePayload.mk "" "" "" 0%N "")
                  (Result.mk "Success" "") tt, None).
Proof.
  apply (async_request_outcomes env_ack OpPRStart cl_async
           (stamp cl_async PRStartReq start7) (zero_ans env_ack OpPRStart)
           broker eq_refl (sched_listen_first "Success|")).
  vm_compute. reflexivity.
Defined.

Lemma async_channels_exclusive_witness :
  (s_responseChan
     (run env_ack OpPRStart cl_async (stamp cl_async PRStartReq start7)
          (sched_listen_first "Success|")
          (init env_ack OpPRStart (zero_ans env_ack OpPRStart))) = None
   \/ s_errorChan
        (run env_ack OpPRStart cl_async (stamp cl_async PRStartReq start7)
             (sched_listen_first "Success|")
             (init env_ack OpPRStart (zero_ans env_ack OpPRStart))) = None)
  /\ (forall err,
         s_errorChan
           (run env_ack OpPRStart cl_async (stamp cl_async PRStartReq start7)
                (sched_listen_first "Success|")
                (init env_ack OpPRStart (zero_ans env_ack OpPRStart)))
         = Some err ->
         err = ErrAsyncTimeout)
  /\ (forall key m,
         In (EvPublished key m true)
            (s_trace
               (run env_ack OpPRStart cl_async
                    (stamp cl_async PRStartReq start7)
                    (sched_listen_first "Success|")
                    (init env_ack OpPRStart (zero_ans env_ack OpPRStart)))) ->
         key = request_key env_ack OpPRStart
                 (stamp cl_async PRStartReq start7)).
Proof.
  exact (async_channels_exclusive env_ack OpPRStart cl_async
           (stamp cl_async PRStartReq start7) (zero_ans env_ack OpPRStart)
           broker eq_refl (sched_listen_first "Success|")).
Defined.

(** ** Publishes on other keys *)

(** The state without its trace: what the next moves depend on. *)
Definition forget {A : Type} (s : state A) : state A :=
  mkState (s_main s) (s_go s) (s_responseChan s) (s_errorChan s) (s_ans s)
          (s_subscribed s) (s_queue s) (s_clock s) [].

(** The schedule without the publishes on keys other than [key]. *)
Definition own_publishes (key : string) (sched : list action) : list action :=
  filter (fun a => match a with
                   | Publish k _ => String.eqb k key
                   | _ => true
                   end) sched.

Section OtherKeys.

Variable E : Env.
Variable op : Operation.
Variable c : client.
Variable pl : ReqPayload (ReqBody E op).
Variable ans : AnsPayload (AnsBody E op).

Let St : Type := state (AnsPayload (AnsBody E op)).

(** No move reads the trace. *)
Lemma forget_step (a : action) (s1 s2 : St) :
  forget s1 = forget s2 ->
  forget (step E op c pl a s1) = forget (step E op c pl a s2).
Proof.
  destruct s1 as [m1 g1 r1 e1 a1 b1 q1 k1 t1].
  destruct s2 as [m2 g2 r2 e2 a2 b2 q2 k2 t2].
  unfold forget. simpl. intros H.
  injection H as <- <- <- <- <- <- <- <-.
  remember (step E op c pl a (mkState m1 g1 r1 e1 a1 b1 q1 k1 t1)) as s1'
    eqn:H1.
  remember (step E op c pl a (mkState m1 g1 r1 e1 a1 b1 q1 k1 t2)) as s2'
    eqn:H2.
  destruct a as [tie|tie|key payload|d];
    [destruct m1|destruct g1 as [[| | | |[|]|]|]| |];
    unfold step, main_step, go_step, publish_step, tick_step,
           ret, emit, set_main, set_go, Client.IsAsync in H1, H2;
    simpl in H1, H2;
    repeat (match type of H1 with
            | context [match ?x with _ => _ end] =>
                lazymatch x with
                | context [match _ with _ => _ end] => fail
                | _ => destruct x eqn:?
                end
            end; simpl in H1, H2);
    subst s1' s2'; reflexivity.
Qed.

Lemma foreign_publish_forgotten (key payload : string) (s : St) :
  String.eqb key (request_key E op pl) = false ->
  forget (step E op c pl (Publish key payload) s) = forget s.
Proof.
  intros H. destruct s. unfold forget, step, publish_step, emit. simpl.
  rewrite H, andb_false_r. reflexivity.
Qed.

Lemma forget_run (sched : list action) (s1 s2 : St) :
  forget s1 = forget s2 ->
  forget (run E op c pl sched s1)
  = forget (run E op c pl (own_publishes (request_key E op pl) sched) s2).
Proof.
  revert s1 s2. induction sched as [|a rest IH]; intros s1 s2 H.
  - exact H.
  - assert (Hstep := forget_step a s1 s2 H).
    destruct a as [tie|tie|key payload|d].
    + exact (IH _ _ Hstep).
    + exact (IH _ _ Hstep).
    + unfold own_publishes. cbn [filter run].
      destruct (String.eqb key (request_key E op pl)) eqn:Hk.
      * exact (IH _ _ Hstep).
      * apply IH. rewrite foreign_publish_forgotten; assumption.
    + exact (IH _ _ Hstep).
Qed.

(** X12.  What is published on other keys makes no difference: [request]
    gives the same result on a schedule and on the schedule without the
    publishes on keys other than its own. *)
Theorem foreign_publishes_are_ignored (sched : list action) :
  request E op c pl ans sched
  = request E op c pl ans (own_publishes (request_key E op pl) sched).
Proof.
  assert (H := forget_run sched (init E op ans) (init E op ans) eq_refl).
  unfold request.
  assert (Hm := f_equal s_main H). assert (Ha := f_equal s_ans H).
  simpl in Hm, Ha. rewrite Hm, Ha. reflexivity.
Qed.

End OtherKeys.

(** ** Sync mode *)

(** Events of a client that does not listen: no goroutine, no subscription,
    no delivery. *)
Definition not_listening (ev : event) : Prop :=
  match ev with
  | EvGo _ | EvSubscribe _ | EvSubClose _ | EvPublished _ _ true => False
  | _ => True
  end.

Section SyncQuiet.

Variable E : Env.
Variable op : Operation.
Variable c : client.
Variable pl : ReqPayload (ReqBody E op).
Variable ans : AnsPayload (AnsBody E op).
Hypothesis Hsync : redisClient c = None.

Lemma sync_never_listens (sched : list action) :
  s_go (run E op c pl sched (init E op ans)) = None
  /\ s_subscribed (run E op c pl sched (init E op ans)) = false
  /\ s_queue (run E op c pl sched (init E op ans)) = []
  /\ Forall not_listening (s_trace (run E op c pl sched (init E op ans))).
Proof.
  apply (run_invariant E op c pl
           (fun s => s_go s = None /\ s_subscribed s = false
                     /\ s_queue s = [] /\ Forall not_listening (s_trace s)));
    [|simpl; auto].
  intros a s (Hg & Hsub & Hq & Htr).
  destruct s as [m g rch ech an sub q clk tr]; simpl in *. subst g sub q.
  remember (step E op c pl a (mkState m None rch ech an false [] clk tr))
    as s' eqn:Hs'.
  destruct a as [tie|tie|key payload|d]; [destruct m| | |];
    step_in Hs'; subst s'; simpl;
    repeat split; auto;
    repeat (apply Forall_app; split; auto);
    repeat constructor; simpl; auto.
Qed.

End SyncQuiet.

(** X14.  A sync client never listens: on every schedule no goroutine is
    started, nothing is subscribed and every publish of the peer is dropped;
    and when the body of the response cannot be read, [request] returns the
    read error itself, not wrapped, with [*ans] untouched. *)
Theorem sync_client_never_listens
  (E : Env) (op : Operation) (c : client) (pl : ReqPayload (ReqBody E op))
  (ans : AnsPayload (AnsBody E op)) (sched : list action) :
  Client.IsAsync c = false ->
  (s_go (run E op c pl sched (init E op ans)) = None
   /\ s_subscribed (run E op c pl sched (init E op ans)) = false
   /\ Forall not_listening (s_trace (run E op c pl sched (init E op ans))))
  /\ (forall b resp err,
         json_Marshal_req E op pl = Ok b ->
         http_Post E (httpClient c) (server c) b = Ok resp ->
         Body resp = Err err ->
         5 <= main_moves sched ->
         request E op c pl ans sched = Some (ans, Some err)).
Proof.
  intros Hsync.
  assert (Hnil : redisClient c = None).
  { unfold Client.IsAsync in Hsync. destruct (redisClient c); congruence. }
  split.
  - destruct (sync_never_listens E op c pl ans Hnil sched)
      as (H1 & H2 & _ & H3). auto.
  - intros b resp err Hm Hp Hb Hmv.
    rewrite (sync_request E op c pl ans b resp Hnil Hm Hp sched).
    apply Nat.leb_le in Hmv. rewrite Hmv, Hb. reflexivity.
Qed.

Lemma sync_client_never_listens_witness :
  request (toy_env (Ok (mkResponse 200 (Err (lib_error "unexpected EOF")))))
          OpPRStart cl_sync (stamp cl_sync PRStartReq start7)
          (mkAnsPayload (BasePayload.mk "" "" "" 0%N "") (Result.mk "" "") tt)
          sched_sync
  = Some (mkAnsPayload (BasePayload.mk "" "" "" 0%N "") (Result.mk "" "") tt,
          Some (lib_error "unexpected EOF")).
Proof.
  destruct (sync_client_never_listens
              (toy_env (Ok (mkResponse 200 (Err (lib_error "unexpected EOF")))))
              OpPRStart cl_sync (stamp cl_sync PRStartReq start7)
              (mkAnsPayload (BasePayload.mk "" "" "" 0%N "")
                            (Result.mk "" "") tt)
              sched_sync eq_refl) as [_ H].
  apply (H (bytes_of_string "1.0|010203|040506|7|PRStartReq")
           (mkResponse 200 (Err (lib_error "unexpected EOF")))
           (lib_error "unexpected EOF") eq_refl eq_refl eq_refl).
  simpl. lia.
Defined.

(** ** The listener always finishes *)

(** The goroutine gets five moves, with the timeout elapsing after the
    second. *)
Definition drain (timeout : Z) : list action :=
  [Go true; Go true; Tick (Z.to_N timeout); Go true; Go true; Go true].

Section Drain.

Variable E : Env.
Variable op : Operation.
Variable c : client.
Variable pl : ReqPayload (ReqBody E op).
Variable ans : AnsPayload (AnsBody E op).
Variable rc : redis_Client.
Hypothesis Hasync : redisClient c = Some rc.

Let St : Type := state (AnsPayload (AnsBody E op)).

(** The deadline of a waiting goroutine is at most one timeout ahead. *)
Lemma deadline_near (sched : list action) (dl : Z) :
  s_go (run E op c pl sched (init E op ans)) = Some (GSelect dl) ->
  (dl <= s_clock (run E op c pl sched (init E op ans)) + asyncTimeout c)%Z.
Proof.
  revert dl.
  apply (run_invariant E op c pl
           (fun s => forall dl, s_go s = Some (GSelect dl) ->
                                (dl <= s_clock s + asyncTimeout c)%Z));
    [|simpl; discriminate].
  intros a s Hinv.
  destruct s as [m g rch ech an sub q clk tr].
  remember (step E op c pl a (mkState m g rch ech an sub q clk tr)) as s'
    eqn:Hs'.
  simpl in *.
  destruct a as [tie|tie|key payload|d];
    [destruct m|destruct g as [[| | | |[|]|]|]| |];
    step_in Hs'; subst s'; simpl; intros dl' Hdl';
    try discriminate; try (injection Hdl' as <-);
    try (specialize (Hinv _ eq_refl)); try (specialize (Hinv _ Hdl'));
    try lia.
Qed.

(** Once the [go] statement has run there is a goroutine. *)
Lemma started_has_goroutine (sched : list action) :
  go_started (s_trace (run E op c pl sched (init E op ans))) = true ->
  s_go (run E op c pl sched (init E op ans)) <> None.
Proof.
  apply (run_invariant E op c pl
           (fun s => go_started (s_trace s) = true -> s_go s <> None));
    [|simpl; discriminate].
  intros a s Hinv.
  destruct s as [m g rch ech an sub q clk tr].
  remember (step E op c pl a (mkState m g rch ech an sub q clk tr)) as s'
    eqn:Hs'.
  simpl in *.
  destruct a as [tie|tie|key payload|d];
    [destruct m|destruct g as [[| | | |[|]|]|]| |];
    step_in Hs'; subst s'; simpl;
    unfold go_started in *; rewrite ?existsb_app; simpl;
    rewrite ?orb_false_r; try discriminate; auto.
Qed.

Ltac prune :=
  try solve [ exfalso;
              repeat match goal with
                     | H : Z.leb _ _ = true |- _ => apply Z.leb_le in H
                     | H : Z.leb _ _ = false |- _ => apply Z.leb_gt in H
                     end;
              lia ];
  try solve [ exfalso; congruence ].

Lemma drain_from (s : St) :
  go_inv s ->
  (forall dl, s_go s = Some (GSelect dl) ->
              (dl <= s_clock s + asyncTimeout c)%Z) ->
  s_go s <> None ->
  s_go (run E op c pl (drain (asyncTimeout c)) s) = Some GDone
  /\ s_subscribed (run E op c pl (drain (asyncTimeout c)) s) = false
  /\ s_main (run E op c pl (drain (asyncTimeout c)) s) = s_main s
  /\ s_ans (run E op c pl (drain (asyncTimeout c)) s) = s_ans s.
Proof.
  intros Hgo Hdl Hstarted.
  destruct s as [m g rch ech an sub q clk tr].
  unfold go_inv in Hgo. simpl in Hgo, Hdl, Hstarted. cbn [s_main s_ans].
  destruct g as [[| |dl|r|r|]|]; [| | | | | |congruence];
    try specialize (Hdl _ eq_refl);
    repeat match goal with
           | H : _ /\ _ |- _ => destruct H
           end; subst;
    unfold drain;
    repeat (rewrite run_cons;
            match goal with
            | |- context [run _ _ _ _ _ (step ?E' ?op' ?c' ?pl' ?a ?s)] =>
                let s' := fresh "s" in
                let H := fresh "Hs" in
                remember (step E' op' c' pl' a s) as s' eqn:H;
                step_in H; subst s'; prune
            end);
    simpl; auto.
Qed.

(** X15.  The listener never stays behind for good: in async mode, from
    any state a run can reach in which the goroutine has been started (for
    instance after [request] has returned a transport error), giving the
    goroutine its moves while the timeout elapses ends it with the
    subscription closed, without a move of the calling thread: its send
    into the buffered channel cannot block. *)
Theorem listener_always_finishes (sched : list action) :
  go_started (s_trace (run E op c pl sched (init E op ans))) = true ->
  s_go (run E op c pl (sched ++ drain (asyncTimeout c)) (init E op ans))
  = Some GDone
  /\ s_subscribed
       (run E op c pl (sched ++ drain (asyncTimeout c)) (init E op ans))
     = false
  /\ s_main (run E op c pl (sched ++ drain (asyncTimeout c)) (init E op ans))
     = s_main (run E op c pl sched (init E op ans)).
Proof.
  intros Hstarted. rewrite run_app.
  destruct (async_inv_run E op c pl ans rc Hasync sched) as (_ & Hgo & _).
  destruct (drain_from (run E op c pl sched (init E op ans)) Hgo)
    as (H1 & H2 & H3 & _); auto.
  - intros dl. apply deadline_near.
  - apply started_has_goroutine. exact Hstarted.
Qed.

End Drain.

Lemma listener_always_finishes_witness :
  s_go (run env_down OpPRStart cl_async (stamp cl_async PRStartReq start7)
            (sched_post_fails "Success|" ++ drain (asyncTimeout cl_async))
            (init env_down OpPRStart (zero_ans env_down OpPRStart)))
  = Some GDone
  /\ s_subscribed
       (run env_down OpPRStart cl_async (stamp cl_async PRStartReq start7)
            (sched_post_fails "Success|" ++ drain (asyncTimeout cl_async))
            (init env_down OpPRStart (zero_ans env_down OpPRStart)))
     = false
  /\ s_main
       (run env_down OpPRStart cl_async (stamp cl_async PRStartReq start7)
            (sched_post_fails "Success|" ++ drain (asyncTimeout cl_async))
            (init env_down OpPRStart (zero_ans env_down OpPRStart)))
     = s_main
         (run env_down OpPRStart cl_async (stamp cl_async PRStartReq start7)
              (sched_post_fails "Success|")
              (init env_down OpPRStart (zero_ans env_down OpPRStart))).
Proof.
  apply (listener_always_finishes env_down OpPRStart cl_async
           (stamp cl_async PRStartReq start7) (zero_ans env_down OpPRStart)
           broker eq_refl (sched_post_fails "Success|")).
  vm_compute. reflexivity.
Defined.

(** ** No early timeout, no second send *)

(** The number of subscriptions made in a trace. *)
Fixpoint subscriptions (tr : list event) : nat :=
  match tr with
  | [] => 0
  | EvSubscribe _ :: rest => S (subscriptions rest)
  | _ :: rest => subscriptions rest
  end.

Lemma subscriptions_app (tr1 tr2 : list event) :
  subscriptions (tr1 ++ tr2) = subscriptions tr1 + subscriptions tr2.
Proof.
  induction tr1 as [|ev tr1 IH]; simpl; auto.
  destruct ev; simpl; rewrite ?IH; auto.
Qed.

Section Once.

Variable E : Env.
Variable op : Operation.
Variable c : client.
Variable pl : ReqPayload (ReqBody E op).
Variable ans : AnsPayload (AnsBody E op).

(** X16.  [request] never retries: on every schedule, in either mode, it
    hands at most one request to the transport and makes at most one
    subscription. *)
Theorem at_most_one_send_and_subscription (sched : list action) :
  length (posts (s_trace (run E op c pl sched (init E op ans)))) <= 1
  /\ subscriptions (s_trace (run E op c pl sched (init E op ans))) <= 1.
Proof.
  cut (match s_main (run E op c pl sched (init E op ans)) with
       | MMarshal | MGo _ | MPost _ =>
           posts (s_trace (run E op c pl sched (init E op ans))) = []
       | _ =>
           length (posts (s_trace (run E op c pl sched (init E op ans)))) <= 1
       end
       /\ match s_go (run E op c pl sched (init E op ans)) with
          | None | Some GSubscribe =>
              subscriptions
                (s_trace (run E op c pl sched (init E op ans))) = 0
          | _ =>
              subscriptions
                (s_trace (run E op c pl sched (init E op ans))) <= 1
          end
       /\ match s_main (run E op c pl sched (init E op ans)) with
          | MMarshal | MGo _ =>
              s_go (run E op c pl sched (init E op ans)) = None
          | _ => True
          end).
  { intros (H1 & H2 & _). split.
    - destruct (s_main _); try rewrite H1; simpl; lia.
    - destruct (s_go _) as [[]|]; lia. }
  apply (run_invariant E op c pl
           (fun s => match s_main s with
                     | MMarshal | MGo _ | MPost _ => posts (s_trace s) = []
                     | _ => length (posts (s_trace s)) <= 1
                     end
                     /\ match s_go s with
                        | None | Some GSubscribe =>
                            subscriptions (s_trace s) = 0
                        | _ => subscriptions (s_trace s) <= 1
                        end
                     /\ match s_main s with
                        | MMarshal | MGo _ => s_go s = None
                        | _ => True
                        end));
    [|simpl; auto].
  intros a s (Hp & Hs & Hg).
  destruct s as [m g rch ech an sub q clk tr].
  remember (step E op c pl a (mkState m g rch ech an sub q clk tr)) as s'
    eqn:Hs'.
  simpl in *.
  destruct a as [tie|tie|key payload|d];
    [destruct m|destruct g as [[| | | |[|]|]|]| |];
    step_in Hs'; subst s'; simpl;
    rewrite ?posts_app, ?subscriptions_app, ?length_app; simpl;
    repeat match goal with
           | H : ?x = None |- _ => subst x
           end;
    rewrite ?Hp, ?Hs; simpl; repeat split; auto; try lia;
    try solve [destruct m; simpl in *; rewrite ?app_nil_r, ?Nat.add_0_r;
               try discriminate; try congruence; auto; lia];
    try solve [destruct g as [[| | | | |]|]; simpl in *;
               rewrite ?app_nil_r, ?Nat.add_0_r;
               try discriminate; try congruence; auto; lia].
Qed.

End Once.

Section NoEarlyTimeout.

Variable E : Env.
Variable op : Operation.
Variable c : client.
Variable pl : ReqPayload (ReqBody E op).
Variable ans : AnsPayload (AnsBody E op).
Variable rc : redis_Client.
Hypothesis Hasync : redisClient c = Some rc.

Lemma timeout_needs_time (sched : list action) :
  (0 <= s_clock (run E op c pl sched (init E op ans)))%Z
  /\ (forall dl,
         s_go (run E op c pl sched (init E op ans)) = Some (GSelect dl) ->
         (asyncTimeout c <= dl)%Z)
  /\ (forall err,
         s_go (run E op c pl sched (init E op ans)) = Some (GClose (Err err))
         \/ s_go (run E op c pl sched (init E op ans))
            = Some (GSend (Err err)) ->
         (asyncTimeout c <= s_clock (run E op c pl sched (init E op ans)))%Z)
  /\ (forall err,
         s_errorChan (run E op c pl sched (init E op ans)) = Some err ->
         (asyncTimeout c <= s_clock (run E op c pl sched (init E op ans)))%Z)
  /\ (s_main (run E op c pl sched (init E op ans))
      = MReturned (Some ErrAsyncTimeout) ->
      (asyncTimeout c <= s_clock (run E op c pl sched (init E op ans)))%Z).
Proof.
  apply (run_invariant E op c pl
           (fun s =>
              (0 <= s_clock s)%Z
              /\ (forall dl, s_go s = Some (GSelect dl) ->
                             (asyncTimeout c <= dl)%Z)
              /\ (forall err,
                     s_go s = Some (GClose (Err err))
                     \/ s_go s = Some (GSend (Err err)) ->
                     (asyncTimeout c <= s_clock s)%Z)
              /\ (forall err, s_errorChan s = Some err ->
                              (asyncTimeout c <= s_clock s)%Z)
              /\ (s_main s = MReturned (Some ErrAsyncTimeout) ->
                  (asyncTimeout c <= s_clock s)%Z)));
    [|simpl; repeat split; intros; try discriminate; try lia;
      destruct H; discriminate].
  intros a s (Hclk & Hdl & Hres & Hech & Hret).
  destruct s as [m g rch ech an sub q clk tr].
  remember (step E op c pl a (mkState m g rch ech an sub q clk tr)) as s'
    eqn:Hs'.
  simpl in *.
  destruct a as [tie|tie|key payload|d];
    [destruct m|destruct g as [[| | | |[|]|]|]| |];
    step_in Hs'; subst s'; simpl;
    repeat split; intros;
    repeat match goal with
           | H : _ \/ _ |- _ => destruct H
           | H : Some _ = Some _ |- _ => injection H as H
           | H : MReturned _ = MReturned _ |- _ => injection H as H
           | H : Z.leb _ _ = true |- _ => apply Z.leb_le in H
           end;
    subst; try discriminate; try lia;
    try (specialize (Hdl _ eq_refl); lia);
    try (assert (Ht := Hres _ (or_introl eq_refl)); lia);
    try (assert (Ht := Hres _ (or_intror eq_refl)); lia);
    try (assert (Ht := Hech _ eq_refl); lia);
    try (assert (Ht := Hret eq_refl); lia);
    try (assert (Ht := Hres _ (or_introl H)); lia);
    try (assert (Ht := Hres _ (or_intror H)); lia);
    try (assert (Ht := Hech _ H); lia);
    try (assert (Ht := Hret H); lia);
    eauto.
Qed.

(** X17.  The timeout is never reported early: in async mode, on every
    schedule, when [request] returns [ErrAsyncTimeout] at least
    [asyncTimeout] nanoseconds have passed since it was entered. *)
Theorem no_early_timeout (sched : list action)
  (r : AnsPayload (AnsBody E op) * option error) :
  request E op c pl ans sched = Some r ->
  snd r = Some ErrAsyncTimeout ->
  (asyncTimeout c <= s_clock (run E op c pl sched (init E op ans)))%Z.
Proof.
  unfold request. intros Hreq Herr.
  destruct (timeout_needs_time sched) as (_ & _ & _ & _ & Hret).
  destruct (s_main (run E op c pl sched (init E op ans))) eqn:Hpc;
    try discriminate.
  injection Hreq as <-. simpl in Herr. subst err. auto.
Qed.

End NoEarlyTimeout.

Lemma no_early_timeout_witness :
  (asyncTimeout cl_async
   <= s_clock (run env_ack OpPRStart cl_async
                   (stamp cl_async PRStartReq start7)
                   (sched_silence 2000000000)
                   (init env_ack OpPRStart (zero_ans env_ack OpPRStart))))%Z.
Proof.
  apply (no_early_timeout env_ack OpPRStart cl_async
           (stamp cl_async PRStartReq start7) (zero_ans env_ack OpPRStart)
           broker eq_refl (sched_silence 2000000000)
           (zero_ans env_ack OpPRStart, Some ErrAsyncTimeout)).
  - vm_compute. reflexivity.
  - reflexivity.
Defined.

(** ** The operations *)

(** X18.  A request method reports success exactly when [request] returned
    no error and the decoded result code is [Success]; an error of
    [request] is passed on unchanged, together with whatever was decoded;
    and the method has returned exactly when [request] has. *)
Theorem call_succeeds_iff
  (E : Env) (op : Operation) (c : client) (pl : ReqPayload (ReqBody E op))
  (sched : list action) :
  (forall a,
      call E op c pl sched = Some (a, None) <->
      request E op c (stamp c (tag_of op) pl) (zero_ans E op) sched
      = Some (a, None)
      /\ Result.ResultCode (ans_result a) = Success)
  /\ (forall a err,
         request E op c (stamp c (tag_of op) pl) (zero_ans E op) sched
         = Some (a, Some err) ->
         call E op c pl sched = Some (a, Some err))
  /\ (call E op c pl sched = None <->
      request E op c (stamp c (tag_of op) pl) (zero_ans E op) sched = None).
Proof.
  rewrite call_unfold. unfold check_result.
  destruct (request E op c (stamp c (tag_of op) pl) (zero_ans E op) sched)
    as [[a0 [e0|]]|]; simpl;
    [|destruct (String.eqb_spec (Result.ResultCode (ans_result a0)) Success)
        as [Heq|Hne]; simpl|];
    repeat split; intros;
    repeat match goal with
           | H : _ /\ _ |- _ => destruct H
           | H : Some _ = Some _ |- _ => injection H as H
           | H : (_, _) = (_, _) |- _ => injection H as H
           end;
    subst; try discriminate; try congruence; auto.
Qed.

(** ** The call always comes back *)


Section Returns.

Variable E : Env.
Variable op : Operation.
Variable c : client.
Variable pl : ReqPayload (ReqBody E op).
Variable ans : AnsPayload (AnsBody E op).
Variable rc : redis_Client.
Hypothesis Hasync : redisClient c = Some rc.

Let St : Type := state (AnsPayload (AnsBody E op)).










End Returns.


(** ** The end of the wait *)













Section Clock.

Variable E : Env.
Variable op : Operation.
Variable c : client.
Variable pl : ReqPayload (ReqBody E op).

Let St : Type := state (AnsPayload (AnsBody E op)).





End Clock.

Section EndOfWait.

Variable E : Env.
Variable op : Operation.
Variable c : client.
Variable pl : ReqPayload (ReqBody E op).
Variable ans : AnsPayload (AnsBody E op).
Variable rc : redis_Client.
Variable b : bytes.
Variable resp : http_Response.
Hypothesis Hasync : redisClient c = Some rc.
Hypothesis Hm : json_Marshal_req E op pl = Ok b.
Hypothesis Hp : http_Post E (httpClient c) (server c) b = Ok resp.

Let St : Type := state (AnsPayload (AnsBody E op)).




End EndOfWait.

Section Window.

Variable E : Env.
Variable op : Operation.
Variable c : client.
Variable pl : ReqPayload (ReqBody E op).
Variable ans : AnsPayload (AnsBody E op).
Variable rc : redis_Client.
Hypothesis Hasync : redisClient c = Some rc.

Let St : Type := state (AnsPayload (AnsBody E op)).




End Window.

Section Outcomes.

Variable E : Env.
Variable op : Operation.
Variable c : client.
Variable pl : ReqPayload (ReqBody E op).
Variable ans : AnsPayload (AnsBody E op).
Variable rc : redis_Client.
Variable b : bytes.
Variable resp : http_Response.
Hypothesis Hasync : redisClient c = Some rc.
Hypothesis Hm : json_Marshal_req E op pl = Ok b.
Hypothesis Hp : http_Post E (httpClient c) (server c) b = Ok resp.

Let St : Type := state (AnsPayload (AnsBody E op)).







End Outcomes.

(** ** An answer that arrives in time *)




(** ** The timeout *)



